(** * Heritage guide front end (static/js/app.js)

    A shallow embedding of the browser script: the chat client
    [sendChatMessage], the camera-input change handler, the audio
    playback client [playResultVoice], [closeResult] and the keypress
    handler, over an explicit page state.

    JavaScript strings are sequences of UTF-16 code units, JSON responses
    are JavaScript values, exceptions are abrupt completions of a small
    state-and-error monad, and every [await] splits an async function into
    the part that runs before the request is sent and the part that runs
    when the response arrives. *)

From Stdlib Require Import List NArith ZArith Bool String Ascii DecimalString Lia.
From Stdlib Require Import Floats.SpecFloat.
Import ListNotations.

Local Open Scope N_scope.
Local Open Scope list_scope.

(** ** Strings *)

(** A JavaScript string: its UTF-16 code units, each below 65536. *)
Definition jsstring := list N.

(** A string literal of the script (ASCII only in app.js). *)
Definition lit (s : string) : jsstring :=
  map N_of_ascii (list_ascii_of_string s).

(** The double-quote character, which occurs inside the markup templates. *)
Definition dq : jsstring := [34].

Fixpoint str_eqb (s t : jsstring) : bool :=
  match s, t with
  | [], [] => true
  | c :: s', d :: t' => (c =? d) && str_eqb s' t'
  | _, _ => false
  end.

(** ECMAScript WhiteSpace and LineTerminator code points: what
    [String.prototype.trim] strips. *)
Definition is_white_space (c : N) : bool :=
  (c =? 0x9) || (c =? 0xA) || (c =? 0xB) || (c =? 0xC) || (c =? 0xD)
  || (c =? 0x20) || (c =? 0xA0) || (c =? 0x1680)
  || ((0x2000 <=? c) && (c <=? 0x200A))
  || (c =? 0x2028) || (c =? 0x2029) || (c =? 0x202F) || (c =? 0x205F)
  || (c =? 0x3000) || (c =? 0xFEFF).

Fixpoint trim_start (s : jsstring) : jsstring :=
  match s with
  | [] => []
  | c :: s' => if is_white_space c then trim_start s' else s
  end.

Definition trim_end (s : jsstring) : jsstring := rev (trim_start (rev s)).

(** [String.prototype.trim]. *)
Definition trim (s : jsstring) : jsstring := trim_end (trim_start s).

(** ** Exceptions *)

Inductive error : Type :=
| TypeError     (* property read on null/undefined, failed ToPrimitive, network failure of fetch *)
| URIError      (* encodeURIComponent on an unpaired surrogate *)
| SyntaxError.  (* response.json() on a body that is not JSON *)

Inductive completion (A : Type) : Type :=
| Normal (a : A)
| Abrupt (e : error).
Arguments Normal {A} a.
Arguments Abrupt {A} e.

(** ** encodeURIComponent *)

(** uriUnescaped: letters, digits and the marks [-_.!~*'()]. *)
Definition is_uri_unreserved (c : N) : bool :=
  ((0x41 <=? c) && (c <=? 0x5A)) || ((0x61 <=? c) && (c <=? 0x7A))
  || ((0x30 <=? c) && (c <=? 0x39))
  || (c =? 0x2D) || (c =? 0x5F) || (c =? 0x2E) || (c =? 0x21)
  || (c =? 0x7E) || (c =? 0x2A) || (c =? 0x27) || (c =? 0x28) || (c =? 0x29).

Definition is_leading_surrogate (c : N) : bool := (0xD800 <=? c) && (c <=? 0xDBFF).
Definition is_trailing_surrogate (c : N) : bool := (0xDC00 <=? c) && (c <=? 0xDFFF).

Definition hex_digit (n : N) : N := if n <? 10 then 0x30 + n else 0x37 + n.

(** One octet as [%XX], upper-case hexadecimal. *)
Definition percent (octet : N) : jsstring :=
  [0x25; hex_digit (octet / 16); hex_digit (octet mod 16)].

(** The UTF-8 octets of a code point. *)
Definition utf8 (cp : N) : list N :=
  if cp <? 0x80 then [cp]
  else if cp <? 0x800 then [0xC0 + cp / 64; 0x80 + cp mod 64]
  else if cp <? 0x10000 then
    [0xE0 + cp / 4096; 0x80 + (cp / 64) mod 64; 0x80 + cp mod 64]
  else
    [0xF0 + cp / 262144; 0x80 + (cp / 4096) mod 64;
     0x80 + (cp / 64) mod 64; 0x80 + cp mod 64].

Definition percent_encode (cp : N) : jsstring := flat_map percent (utf8 cp).

(** The Encode operation of ECMAScript with the unreserved set of
    [encodeURIComponent]; an unpaired surrogate raises URIError. *)
Fixpoint encodeURIComponent (s : jsstring) : completion jsstring :=
  match s with
  | [] => Normal []
  | c :: rest =>
      if is_uri_unreserved c then
        match encodeURIComponent rest with
        | Normal r => Normal (c :: r)
        | Abrupt e => Abrupt e
        end
      else if is_trailing_surrogate c then Abrupt URIError
      else if is_leading_surrogate c then
        match rest with
        | [] => Abrupt URIError
        | d :: rest' =>
            if is_trailing_surrogate d then
              match encodeURIComponent rest' with
              | Normal r =>
                  Normal (percent_encode ((c - 0xD800) * 0x400 + (d - 0xDC00) + 0x10000) ++ r)
              | Abrupt e => Abrupt e
              end
            else Abrupt URIError
        end
      else
        match encodeURIComponent rest with
        | Normal r => Normal (percent_encode c ++ r)
        | Abrupt e => Abrupt e
        end
  end.

(** ** JavaScript values *)

(** The values the script handles: what [JSON.parse] produces, and
    [undefined] for a missing property or an unset global. Numbers are
    IEEE 754 doubles. An object is the list of its own properties. *)
#[warnings="-register-all"]
Inductive value : Type :=
| VUndefined
| VNull
| VBool (b : bool)
| VNum (x : spec_float)
| VStr (s : jsstring)
| VArr (elems : list value)
| VObj (props : list (jsstring * value)).

Fixpoint own_property (props : list (jsstring * value)) (key : jsstring) : option value :=
  match props with
  | [] => None
  | (k, v) :: props' => if str_eqb k key then Some v else own_property props' key
  end.

(** Property read [v.key] for the property names app.js reads (status,
    text, name, history, coordinates, lat, lng, message, audio_url): none
    of them is defined on a built-in prototype, so a value without such an
    own property yields [undefined]; reading from null or undefined raises
    TypeError. *)
Definition Get (v : value) (key : jsstring) : completion value :=
  match v with
  | VUndefined | VNull => Abrupt TypeError
  | VObj props =>
      match own_property props key with
      | Some x => Normal x
      | None => Normal VUndefined
      end
  | _ => Normal VUndefined
  end.

(** ToBoolean: the truthiness used by [if], [!] and [||]. *)
Definition ToBoolean (v : value) : bool :=
  match v with
  | VUndefined | VNull => false
  | VBool b => b
  | VNum (S754_zero _) | VNum S754_nan => false
  | VNum _ => true
  | VStr s => match s with [] => false | _ => true end
  | VArr _ | VObj _ => true
  end.

(** [v === "..."] against a string literal. *)
Definition strict_eq_str (v : value) (s : jsstring) : bool :=
  match v with
  | VStr t => str_eqb t s
  | _ => false
  end.

(** [a || b]. *)
Definition or_else (a b : value) : value := if ToBoolean a then a else b.

Fixpoint join_with (sep : jsstring) (parts : list jsstring) : jsstring :=
  match parts with
  | [] => []
  | [p] => p
  | p :: parts' => p ++ sep ++ join_with sep parts'
  end.

Section Script.

(** Number::toString, the decimal rendering of a double, is a built-in the
    script relies on and is taken as given. *)
Variable Number_toString : spec_float -> jsstring.

(** What the [innerHTML] getter of an element returns after a string was
    assigned to it: the browser parses the string as the children of the
    element and serialises them again, which escapes text, closes open
    tags and normalises the markup. HTML parsing and serialisation are
    built-ins of the browser and are taken as given. Only the markup is
    modelled: nothing that inserted markup could load or run is. *)
Variable innerHTML_roundtrip : jsstring -> jsstring.

(** ToString, as applied by template literals and by DOMString
    attribute setters. A plain object renders as [[object Object]] through
    Object.prototype.toString unless it has an own property [toString]: a
    JSON value is never callable, so ToPrimitive then finds no usable
    method and raises TypeError. An array renders through
    Array.prototype.join, where null and undefined elements are empty. *)
Fixpoint ToString (v : value) : completion jsstring :=
  match v with
  | VUndefined => Normal (lit "undefined")
  | VNull => Normal (lit "null")
  | VBool true => Normal (lit "true")
  | VBool false => Normal (lit "false")
  | VNum x => Normal (Number_toString x)
  | VStr s => Normal s
  | VArr elems =>
      let fix parts (l : list value) : completion (list jsstring) :=
        match l with
        | [] => Normal []
        | x :: l' =>
            match (match x with
                   | VUndefined | VNull => Normal []
                   | _ => ToString x
                   end) with
            | Normal s =>
                match parts l' with
                | Normal ss => Normal (s :: ss)
                | Abrupt e => Abrupt e
                end
            | Abrupt e => Abrupt e
            end
        end in
      match parts elems with
      | Normal ss => Normal (join_with (lit ",") ss)
      | Abrupt e => Abrupt e
      end
  | VObj props =>
      match own_property props (lit "toString") with
      | Some _ => Abrupt TypeError
      | None => Normal (lit "[object Object]")
      end
  end.

(** Conversion to a DOMString attribute declared LegacyNullToEmptyString
    ([innerText]): null becomes the empty string. *)
Definition ToDOMString_null_empty (v : value) : completion jsstring :=
  match v with
  | VNull => Normal []
  | _ => ToString v
  end.

(** ** The page *)

(** A file chosen in the camera input; the script only forwards it. *)
Record File : Type := mkFile {
  file_name : jsstring;
  file_bytes : list N
}.

Inductive http_method : Type := GET | POST.

(** What the script does to the outside of the page, in order. *)
Inductive effect : Type :=
| Fetch (url : jsstring) (method : http_method) (form : option (list (jsstring * File)))
| ConsoleError (label : jsstring) (e : error)
| AudioPlay (src : jsstring)         (* new Audio(src).play() *)
| ScrollChatToEnd.                   (* chatBox.scrollTop = chatBox.scrollHeight *)

(** The part of the document and of [window] the script reads and writes.
    [chat_box] is the markup of the log as its [innerHTML] getter returns
    it; the text fields, which the script never reads back, hold the last
    string assigned. *)
Record page : Type := mkPage {
  user_query : jsstring;        (* #user-query .value *)
  lang_selector : jsstring;     (* #lang-selector .value *)
  chat_box : jsstring;          (* #chat-box .innerHTML *)
  landmark_name : jsstring;     (* #landmark-name .innerText *)
  landmark_desc : jsstring;     (* #landmark-desc .innerText *)
  map_link : jsstring;          (* #map-link .href *)
  overlay_hidden : bool;        (* 'hidden' in #scan-result-overlay .classList *)
  currentScanText : value;      (* window.currentScanText *)
  currentScanLang : value;      (* window.currentScanLang *)
  trace : list effect
}.

Definition with_user_query (s : jsstring) (p : page) : page :=
  mkPage s (lang_selector p) (chat_box p) (landmark_name p) (landmark_desc p)
         (map_link p) (overlay_hidden p) (currentScanText p) (currentScanLang p) (trace p).
Definition with_lang_selector (s : jsstring) (p : page) : page :=
  mkPage (user_query p) s (chat_box p) (landmark_name p) (landmark_desc p)
         (map_link p) (overlay_hidden p) (currentScanText p) (currentScanLang p) (trace p).
Definition with_chat_box (s : jsstring) (p : page) : page :=
  mkPage (user_query p) (lang_selector p) s (landmark_name p) (landmark_desc p)
         (map_link p) (overlay_hidden p) (currentScanText p) (currentScanLang p) (trace p).
Definition with_landmark_name (s : jsstring) (p : page) : page :=
  mkPage (user_query p) (lang_selector p) (chat_box p) s (landmark_desc p)
         (map_link p) (overlay_hidden p) (currentScanText p) (currentScanLang p) (trace p).
Definition with_landmark_desc (s : jsstring) (p : page) : page :=
  mkPage (user_query p) (lang_selector p) (chat_box p) (landmark_name p) s
         (map_link p) (overlay_hidden p) (currentScanText p) (currentScanLang p) (trace p).
Definition with_map_link (s : jsstring) (p : page) : page :=
  mkPage (user_query p) (lang_selector p) (chat_box p) (landmark_name p) (landmark_desc p)
         s (overlay_hidden p) (currentScanText p) (currentScanLang p) (trace p).
Definition with_overlay_hidden (b : bool) (p : page) : page :=
  mkPage (user_query p) (lang_selector p) (chat_box p) (landmark_name p) (landmark_desc p)
         (map_link p) b (currentScanText p) (currentScanLang p) (trace p).
Definition with_currentScanText (v : value) (p : page) : page :=
  mkPage (user_query p) (lang_selector p) (chat_box p) (landmark_name p) (landmark_desc p)
         (map_link p) (overlay_hidden p) v (currentScanLang p) (trace p).
Definition with_currentScanLang (v : value) (p : page) : page :=
  mkPage (user_query p) (lang_selector p) (chat_box p) (landmark_name p) (landmark_desc p)
         (map_link p) (overlay_hidden p) (currentScanText p) v (trace p).
Definition with_trace (t : list effect) (p : page) : page :=
  mkPage (user_query p) (lang_selector p) (chat_box p) (landmark_name p) (landmark_desc p)
         (map_link p) (overlay_hidden p) (currentScanText p) (currentScanLang p) t.

(** ** Script computations *)

(** A synchronous run of script code: it ends normally with a result or
    abruptly with a thrown error, and leaves a page behind either way. *)
Definition M (A : Type) : Type := page -> completion A * page.

Definition ret {A} (a : A) : M A := fun p => (Normal a, p).
Definition throw {A} (e : error) : M A := fun p => (Abrupt e, p).
Definition bind {A B} (m : M A) (k : A -> M B) : M B :=
  fun p => match m p with
           | (Normal a, p') => k a p'
           | (Abrupt e, p') => (Abrupt e, p')
           end.
(** [try { body } catch (e) { handler e }]. *)
Definition try_catch {A} (body : M A) (handler : error -> M A) : M A :=
  fun p => match body p with
           | (Normal a, p') => (Normal a, p')
           | (Abrupt e, p') => handler e p'
           end.
(** An expression that may throw, evaluated inside a computation. *)
Definition eval {A} (c : completion A) : M A := fun p => (c, p).
Definition read {A} (field : page -> A) : M A := fun p => (Normal (field p), p).
Definition write (update : page -> page) : M unit := fun p => (Normal tt, update p).
Definition emit (e : effect) : M unit := write (fun p => with_trace (trace p ++ [e]) p).

Notation "x <- m ;; k" := (bind m (fun x => k))
  (at level 61, m at next level, right associativity).
Notation "m ;; k" := (bind m (fun _ => k))
  (at level 61, right associativity).

(** The settlement of [await fetch(...)] followed by
    [await response.json()]: either of them rejects, or the body parses. *)
Inductive outcome : Type :=
| Failed (e : error)
| Parsed (data : value).

Definition await (o : outcome) : M value :=
  match o with
  | Failed e => throw e
  | Parsed data => ret data
  end.

(** A request in flight, named after the continuation that its response
    resumes. *)
Inductive pending : Type := ChatReply | ScanReply | VoiceReply.

(** ** 1. Chat *)

Definition user_msg (query : jsstring) : jsstring :=
  lit "<div class=" ++ dq ++ lit "user-msg" ++ dq ++ lit "><strong>You:</strong> "
  ++ query ++ lit "</div>".

Definition bot_msg (text : jsstring) : jsstring :=
  lit "<div class=" ++ dq ++ lit "bot-msg" ++ dq ++ lit "><strong>AI:</strong> "
  ++ text ++ lit "</div>".

Definition bot_error_msg : jsstring :=
  lit "<div class=" ++ dq ++ lit "bot-msg error" ++ dq
  ++ lit ">Sorry, I encountered an error.</div>".

Definition chat_url (query_enc lang : jsstring) : jsstring :=
  lit "/api/chatbot/ask?query=" ++ query_enc ++ lit "&lang=" ++ lang.

(** [chatBox.innerHTML += html]: the getter's value and [html] are
    concatenated and assigned, and the log is from then on what the
    browser makes of that string. *)
Definition append_chat (html : jsstring) : M unit :=
  write (fun p => with_chat_box (innerHTML_roundtrip (chat_box p ++ html)) p).

(** The catch block of [sendChatMessage]. *)
Definition sendChatMessage_catch (e : error) : M unit :=
  emit (ConsoleError (lit "Chat Error:") e) ;;
  append_chat bot_error_msg.

(** [sendChatMessage] up to its first [await]: the result says whether a
    request is now in flight. *)
Definition sendChatMessage : M (option pending) :=
  raw <- read user_query ;;
  lang <- read lang_selector ;;
  let query := trim raw in
  match query with
  | [] => ret None
  | _ =>
      append_chat (user_msg query) ;;
      write (with_user_query []) ;;
      try_catch
        (enc <- eval (encodeURIComponent query) ;;
         emit (Fetch (chat_url enc lang) POST None) ;;
         ret (Some ChatReply))
        (fun e => sendChatMessage_catch e ;; ret None)
  end.

(** [sendChatMessage] from the settlement of its request to its end. *)
Definition sendChatMessage_then (o : outcome) : M unit :=
  try_catch
    (data <- await o ;;
     status <- eval (Get data (lit "status")) ;;
     if strict_eq_str status (lit "success") then
       text <- eval (Get data (lit "text")) ;;
       shown <- eval (ToString text) ;;
       append_chat (bot_msg shown) ;;
       emit ScrollChatToEnd
     else ret tt)
    sendChatMessage_catch.

(** ** 2. Image recognition *)

Definition map_url (lat lng : jsstring) : jsstring :=
  lit "https://www.google.com/maps/dir/?api=1&destination=" ++ lat ++ lit "," ++ lng.

(** [element.innerText = v]. *)
Definition set_innerText (update : jsstring -> page -> page) (v : value) : M unit :=
  s <- eval (ToDOMString_null_empty v) ;;
  write (update s).

(** The change handler of the camera input up to its first [await];
    [file] is [event.target.files[0]]. *)
Definition camera_change (file : option File) : M (option pending) :=
  match file with
  | None => ret None
  | Some f =>
      write (with_landmark_name (lit "Analyzing Landmark...")) ;;
      write (with_overlay_hidden false) ;;
      emit (Fetch (lit "/api/recognition/scan") POST (Some [(lit "file", f)])) ;;
      ret (Some ScanReply)
  end.

Definition camera_change_catch (e : error) : M unit :=
  emit (ConsoleError (lit "Scan Error:") e) ;;
  write (with_landmark_name (lit "Error")) ;;
  write (with_landmark_desc (lit "Could not reach the vision server.")).

(** The change handler from the settlement of its request to its end. *)
Definition camera_change_then (o : outcome) : M unit :=
  try_catch
    (data <- await o ;;
     status <- eval (Get data (lit "status")) ;;
     if strict_eq_str status (lit "success") then
       name <- eval (Get data (lit "name")) ;;
       set_innerText with_landmark_name name ;;
       history <- eval (Get data (lit "history")) ;;
       set_innerText with_landmark_desc history ;;
       coordinates <- eval (Get data (lit "coordinates")) ;;
       lat <- eval (Get coordinates (lit "lat")) ;;
       lat_s <- eval (ToString lat) ;;
       coordinates' <- eval (Get data (lit "coordinates")) ;;
       lng <- eval (Get coordinates' (lit "lng")) ;;
       lng_s <- eval (ToString lng) ;;
       write (with_map_link (map_url lat_s lng_s)) ;;
       history' <- eval (Get data (lit "history")) ;;
       write (with_currentScanText history') ;;
       lang <- read lang_selector ;;
       write (with_currentScanLang (VStr lang))
     else
       write (with_landmark_name (lit "Unknown Landmark")) ;;
       message <- eval (Get data (lit "message")) ;;
       set_innerText with_landmark_desc message)
    camera_change_catch.

(** ** 3. Voice playback *)

Definition voice_url (text_enc lang : jsstring) : jsstring :=
  lit "/api/chatbot/voice-guide?text=" ++ text_enc ++ lit "&lang=" ++ lang.

Definition playResultVoice_catch (e : error) : M unit :=
  emit (ConsoleError (lit "Voice Error:") e).

(** [playResultVoice] up to its first [await]. *)
Definition playResultVoice : M (option pending) :=
  text <- read currentScanText ;;
  staged_lang <- read currentScanLang ;;
  let lang := or_else staged_lang (VStr (lit "ta")) in
  if negb (ToBoolean text) then ret None
  else
    try_catch
      (text_s <- eval (ToString text) ;;
       enc <- eval (encodeURIComponent text_s) ;;
       lang_s <- eval (ToString lang) ;;
       emit (Fetch (voice_url enc lang_s) GET None) ;;
       ret (Some VoiceReply))
      (fun e => playResultVoice_catch e ;; ret None).

(** [playResultVoice] from the settlement of its request to its end. *)
Definition playResultVoice_then (o : outcome) : M unit :=
  try_catch
    (data <- await o ;;
     audio_url <- eval (Get data (lit "audio_url")) ;;
     if ToBoolean audio_url then
       audio_url' <- eval (Get data (lit "audio_url")) ;;
       src <- eval (ToString audio_url') ;;
       emit (AudioPlay src)
     else ret tt)
    playResultVoice_catch.

(** ** 4. UI helpers *)

Definition closeResult : M unit := write (with_overlay_hidden true).

(** The keypress handler of the query input; [key] is [e.key]. *)
Definition keypress (key : jsstring) : M (option pending) :=
  if str_eqb key (lit "Enter") then sendChatMessage else ret None.

(** ** The page as an event-driven machine *)

(** The page with the requests still awaiting their response. *)
Record world : Type := mkWorld {
  doc : page;
  in_flight : list pending
}.

(** What can happen to the page: the visitor edits the query field or
    picks a language, a control calls one of the script's entry points, or
    a request in flight settles. *)
Inductive event : Type :=
| UserTypes (s : jsstring)
| UserSelectsLanguage (l : jsstring)
| CallSend                                  (* sendChatMessage() *)
| KeyPress (key : jsstring)                 (* keypress on #user-query *)
| CameraChange (file : option File)         (* change on #camera-input *)
| CallPlay                                  (* playResultVoice() *)
| CallClose                                 (* closeResult() *)
| Settle (k : pending) (o : outcome).

Definition pending_eqb (a b : pending) : bool :=
  match a, b with
  | ChatReply, ChatReply | ScanReply, ScanReply | VoiceReply, VoiceReply => true
  | _, _ => false
  end.

Fixpoint take_pending (k : pending) (l : list pending) : option (list pending) :=
  match l with
  | [] => None
  | x :: l' =>
      if pending_eqb x k then Some l'
      else match take_pending k l' with
           | Some r => Some (x :: r)
           | None => None
           end
  end.

Definition resume (k : pending) (o : outcome) : M unit :=
  match k with
  | ChatReply => sendChatMessage_then o
  | ScanReply => camera_change_then o
  | VoiceReply => playResultVoice_then o
  end.

(** The page after an entry point ran to its first [await] (or to its
    end): the request it sent, if any, is now in flight. *)
Definition started (r : completion (option pending) * page) (fl : list pending) : world :=
  match r with
  | (Normal (Some k), p) => mkWorld p (fl ++ [k])
  | (_, p) => mkWorld p fl
  end.

Definition step (ev : event) (w : world) : option world :=
  match ev with
  | UserTypes s => Some (mkWorld (with_user_query s (doc w)) (in_flight w))
  | UserSelectsLanguage l => Some (mkWorld (with_lang_selector l (doc w)) (in_flight w))
  | CallSend => Some (started (sendChatMessage (doc w)) (in_flight w))
  | KeyPress key => Some (started (keypress key (doc w)) (in_flight w))
  | CameraChange file => Some (started (camera_change file (doc w)) (in_flight w))
  | CallPlay => Some (started (playResultVoice (doc w)) (in_flight w))
  | CallClose => Some (mkWorld (snd (closeResult (doc w))) (in_flight w))
  | Settle k o =>
      match take_pending k (in_flight w) with
      | Some fl => Some (mkWorld (snd (resume k o (doc w))) fl)
      | None => None
      end
  end.

Fixpoint run (evs : list event) (w : world) : option world :=
  match evs with
  | [] => Some w
  | ev :: evs' =>
      match step ev w with
      | Some w' => run evs' w'
      | None => None
      end
  end.



(** ** Sample data *)

Definition decimal (n : N) : jsstring :=
  lit (NilEmpty.string_of_uint (N.to_uint n)).

(** The doubles nearest to 11.1 and to 78.2. *)
Definition double_11_1 : spec_float := S754_finite false 6248744482976563 (-49).
Definition double_78_2 : spec_float := S754_finite false 5502835794693325 (-46).

(** Number::toString on the doubles of the sample responses: the two
    doubles above render as 11.1 and 78.2, and a double whose value is an
    integer below 10^21 renders as its decimal digits. It is not meant for
    any other double. *)
Definition sample_Number_toString (x : spec_float) : jsstring :=
  match x with
  | S754_zero _ => lit "0"
  | S754_infinity s => if s then lit "-Infinity" else lit "Infinity"
  | S754_nan => lit "NaN"
  | S754_finite s m e =>
      let magnitude :=
        if (Pos.eqb m 6248744482976563 && Z.eqb e (-49))%bool then lit "11.1"
        else if (Pos.eqb m 5502835794693325 && Z.eqb e (-46))%bool then lit "78.2"
        else match e with
             | Z0 => decimal (Npos m)
             | Zpos k => decimal (Npos m * 2 ^ Npos k)
             | Zneg k => decimal (Npos m / 2 ^ Npos k)
             end in
      if s then lit "-" ++ magnitude else magnitude
  end.

(** The innerHTML round trip on markup that is already in serialised
    form (tags closed and nested as written, attribute values in double
    quotes, no [&], [<] or [>] in text): such markup reads back as it was
    assigned. The sample markup is all of that form; the function is not
    meant for any other. *)
Definition sample_innerHTML_roundtrip (s : jsstring) : jsstring := s.

(** A page as it is after loading, with the given query typed and
    language selected. *)
Definition loaded_page (query lang : jsstring) : page :=
  mkPage query lang [] [] [] [] true VUndefined VUndefined [].

(** [{status:"success", name:"Big Temple", history:"Built by Raja Raja I",
     coordinates:{lat:11.1, lng:78.2}}] *)
Definition big_temple : value :=
  VObj [(lit "status", VStr (lit "success"));
        (lit "name", VStr (lit "Big Temple"));
        (lit "history", VStr (lit "Built by Raja Raja I"));
        (lit "coordinates", VObj [(lit "lat", VNum double_11_1);
                                  (lit "lng", VNum double_78_2)])].

(** The same response without coordinates, and with coordinates that are
    an object without [lat] and [lng]. *)
Definition temple_no_coordinates : value :=
  VObj [(lit "status", VStr (lit "success"));
        (lit "name", VStr (lit "Big Temple"));
        (lit "history", VStr (lit "Built by Raja Raja I"))].

Definition temple_empty_coordinates : value :=
  VObj [(lit "status", VStr (lit "success"));
        (lit "name", VStr (lit "Big Temple"));
        (lit "history", VStr (lit "Built by Raja Raja I"));
        (lit "coordinates", VObj [])].

(** [{status:"error", message:"no match"}] *)
Definition no_match : value :=
  VObj [(lit "status", VStr (lit "error")); (lit "message", VStr (lit "no match"))].

(** [{audio_url:"http://x/a.mp3"}] and [{audio_url:""}] *)
Definition voice_ready : value := VObj [(lit "audio_url", VStr (lit "http://x/a.mp3"))].
Definition voice_empty_url : value := VObj [(lit "audio_url", VStr [])].

(** A page on which a scan staged the text "Built by Raja Raja I" with
    the given language. *)
Definition scanned_page (lang : value) : page :=
  mkPage [] (lit "en") [] (lit "Big Temple") (lit "Built by Raja Raja I")
         (lit "https://www.google.com/maps/dir/?api=1&destination=11.1,78.2")
         false (VStr (lit "Built by Raja Raja I")) lang [].

(** ** Measures used by the properties *)

(** A code unit of a JavaScript string is below 65536. *)
Definition is_code_unit (c : N) : bool := c <? 65536.

(** The characters [encodeURIComponent] can produce: the unreserved ones
    and the percent sign (hexadecimal digits are unreserved). *)
Definition is_url_safe (c : N) : bool := is_uri_unreserved c || (c =? 0x25).

Definition is_fetch (e : effect) : bool :=
  match e with
  | Fetch _ _ _ => true
  | _ => false
  end.

Definition is_settle (ev : event) : bool :=
  match ev with
  | Settle _ _ => true
  | _ => false
  end.

(** The requests sent so far, and the settlements among some events. *)
Definition count_fetch (t : list effect) : nat := List.length (filter is_fetch t).
Definition count_settle (evs : list event) : nat := List.length (filter is_settle evs).





(** [{status:"success", text:"Hello"}] *)
Definition hello_reply : value :=
  VObj [(lit "status", VStr (lit "success")); (lit "text", VStr (lit "Hello"))].

(** [{status:"success", text:{toString:null}}]: a text that cannot be
    converted to a string. *)
Definition unprintable_reply : value :=
  VObj [(lit "status", VStr (lit "success"));
        (lit "text", VObj [(lit "toString", VNull)])].

(** A photo picked in the camera input. *)
Definition temple_photo : File := mkFile (lit "temple.jpg") [255; 216; 255].

(** ** Proof automation *)

(** Unfolds the script's functions and the monad down to case analyses
    on the expressions they evaluate. *)
Ltac script :=
  cbv [sendChatMessage sendChatMessage_then sendChatMessage_catch
       camera_change camera_change_then camera_change_catch set_innerText
       playResultVoice playResultVoice_then playResultVoice_catch
       closeResult keypress append_chat
       bind ret throw try_catch eval read write emit await].

(** Case analysis on the expressions a run branches on, innermost first. *)
Ltac split_cases :=
  repeat (match goal with
          | |- context [match ?x with _ => _ end] =>
              lazymatch x with
              | context [match _ with _ => _ end] => fail
              | _ => destruct x eqn:?
              end
          end; cbn beta iota).

(** Reduces the field projections of updated pages, and nothing else. *)
Ltac fields :=
  cbn [user_query lang_selector chat_box landmark_name landmark_desc map_link
       overlay_hidden currentScanText currentScanLang trace
       with_user_query with_lang_selector with_chat_box with_landmark_name
       with_landmark_desc with_map_link with_overlay_hidden
       with_currentScanText with_currentScanLang with_trace
       doc in_flight fst snd].

(** ** Properties *)

(** *** Strings *)

Lemma str_eqb_refl (s : jsstring) : str_eqb s s = true.
Proof.
  induction s as [|c s IH]; simpl; [reflexivity|].
  now rewrite N.eqb_refl, IH.
Qed.

Lemma str_eqb_eq (s t : jsstring) : str_eqb s t = true <-> s = t.
Proof.
  split; [|intros ->; apply str_eqb_refl].
  revert t; induction s as [|c s IH]; intros [|d t]; simpl; try discriminate; auto.
  intros H; apply andb_prop in H as [Hc Hs].
  apply N.eqb_eq in Hc; f_equal; auto.
Qed.

Lemma strict_eq_str_true (v : value) (s : jsstring) :
  strict_eq_str v s = true <-> v = VStr s.
Proof.
  destruct v; simpl; try (split; [discriminate|intros [=]]).
  rewrite str_eqb_eq; split; [intros ->; reflexivity|intros [=]; assumption].
Qed.

Lemma strict_eq_str_refl (s : jsstring) : strict_eq_str (VStr s) s = true.
Proof. apply str_eqb_refl. Qed.

Lemma strict_eq_str_false (v : value) (s : jsstring) :
  v <> VStr s -> strict_eq_str v s = false.
Proof.
  intros H; destruct (strict_eq_str v s) eqn:E; [|reflexivity].
  apply strict_eq_str_true in E; contradiction.
Qed.

Lemma trim_start_blank (s : jsstring) :
  trim_start s = [] <-> forallb is_white_space s = true.
Proof.
  induction s as [|c s IH]; simpl; [tauto|].
  destruct (is_white_space c); simpl; [exact IH|].
  split; discriminate.
Qed.

Lemma trim_start_head (s : jsstring) (c : N) (r : jsstring) :
  trim_start s = c :: r -> is_white_space c = false.
Proof.
  induction s as [|d s IH]; simpl; [discriminate|].
  destruct (is_white_space d) eqn:E; [exact IH|].
  intros [= <- _]; exact E.
Qed.

(** The trimmed value is empty exactly for the strings made of white
    space only (the empty string among them). *)
Lemma trim_blank (s : jsstring) :
  trim s = [] <-> forallb is_white_space s = true.
Proof.
  unfold trim, trim_end.
  rewrite <- trim_start_blank.
  split.
  - intros H.
    apply (f_equal (@rev N)) in H; rewrite rev_involutive in H; simpl in H.
    apply trim_start_blank in H.
    rewrite forallb_forall in H.
    destruct (trim_start s) as [|c r] eqn:E; [reflexivity|].
    apply trim_start_head in E.
    rewrite (H c) in E; [discriminate|].
    apply in_rev; rewrite rev_involutive; left; reflexivity.
  - intros ->; reflexivity.
Qed.

(** A string without surrogate code units is always encodable. *)
Lemma encodeURIComponent_no_surrogate (s : jsstring) :
  forallb (fun c => negb (is_leading_surrogate c || is_trailing_surrogate c)) s = true ->
  exists enc, encodeURIComponent s = Normal enc.
Proof.
  induction s as [|c s IH]; simpl; [eauto|].
  intros H; apply andb_prop in H as [Hc Hs].
  destruct (IH Hs) as [r Hr]; rewrite Hr.
  apply negb_true_iff, orb_false_iff in Hc as [Hl Ht]; rewrite Hl, Ht.
  destruct (is_uri_unreserved c); eauto.
Qed.

(** *** Chat *)

(** C2. When the trimmed query is empty (the field is empty or holds
    white space only), [sendChatMessage] does nothing: the page, with its
    chat log, its input field and its record of requests, is left as it
    was, and no request is put in flight. *)
Theorem sendChatMessage_blank_noop (p : page) :
  trim (user_query p) = [] ->
  sendChatMessage p = (Normal None, p) /\
  forall fl, step CallSend (mkWorld p fl) = Some (mkWorld p fl).
Proof.
  intros H.
  assert (E : sendChatMessage p = (Normal None, p)).
  { script. rewrite H. reflexivity. }
  split; [exact E|].
  intros fl; simpl; rewrite E; reflexivity.
Qed.

(** The whole of [sendChatMessage] up to its request, for a query that
    can be encoded. *)
Lemma sendChatMessage_sends (p : page) (enc : jsstring) :
  trim (user_query p) <> [] ->
  encodeURIComponent (trim (user_query p)) = Normal enc ->
  sendChatMessage p =
  (Normal (Some ChatReply),
   mkPage [] (lang_selector p)
          (innerHTML_roundtrip (chat_box p ++ user_msg (trim (user_query p))))
          (landmark_name p) (landmark_desc p) (map_link p) (overlay_hidden p)
          (currentScanText p) (currentScanLang p)
          (trace p ++ [Fetch (chat_url enc (lang_selector p)) POST None])).
Proof.
  intros Hne Henc. script.
  destruct (trim (user_query p)) as [|c q] eqn:E; [contradiction|].
  rewrite Henc. reflexivity.
Qed.

(** A query with an unpaired surrogate: the user line is shown, the
    request is never sent and the error line follows at once. *)
Lemma sendChatMessage_unencodable (p : page) (e : error) :
  encodeURIComponent (trim (user_query p)) = Abrupt e ->
  sendChatMessage p =
  (Normal None,
   mkPage [] (lang_selector p)
          (innerHTML_roundtrip
             (innerHTML_roundtrip (chat_box p ++ user_msg (trim (user_query p)))
              ++ bot_error_msg))
          (landmark_name p) (landmark_desc p) (map_link p) (overlay_hidden p)
          (currentScanText p) (currentScanLang p)
          (trace p ++ [ConsoleError (lit "Chat Error:") e])).
Proof.
  intros Henc. script.
  destruct (trim (user_query p)) as [|c q] eqn:E; [discriminate|].
  rewrite Henc. reflexivity.
Qed.

(** C3 (amended). When the trimmed query is not empty, [sendChatMessage]
    appends to the chat log, by [innerHTML +=], the user line built from
    the trimmed query and empties the input field, whether or not the
    query can be encoded. When it can, the POST request for it is sent and
    the log is that line appended; when it cannot, no request is sent and
    the error line is appended after the user line. Nothing else on the
    page changes. *)
Theorem sendChatMessage_user_line (p : page) :
  trim (user_query p) <> [] ->
  exists r p',
    sendChatMessage p = (Normal r, p') /\
    user_query p' = [] /\
    (forall enc,
       encodeURIComponent (trim (user_query p)) = Normal enc ->
       r = Some ChatReply /\
       chat_box p' = innerHTML_roundtrip (chat_box p ++ user_msg (trim (user_query p))) /\
       trace p' = trace p ++ [Fetch (chat_url enc (lang_selector p)) POST None]) /\
    (forall e,
       encodeURIComponent (trim (user_query p)) = Abrupt e ->
       r = None /\
       chat_box p' =
         innerHTML_roundtrip
           (innerHTML_roundtrip (chat_box p ++ user_msg (trim (user_query p)))
            ++ bot_error_msg) /\
       trace p' = trace p ++ [ConsoleError (lit "Chat Error:") e]) /\
    p' = with_trace (trace p') (with_user_query [] (with_chat_box (chat_box p') p)).
Proof.
  intros Hne.
  destruct (encodeURIComponent (trim (user_query p))) as [enc|e] eqn:Henc.
  - do 2 eexists. split; [apply (sendChatMessage_sends p enc Hne Henc)|].
    fields. split; [reflexivity|].
    split; [intros enc' [= <-]; repeat split|].
    split; [discriminate|reflexivity].
  - do 2 eexists. split; [apply (sendChatMessage_unencodable p e Henc)|].
    fields. split; [reflexivity|].
    split; [discriminate|].
    split; [intros e' [= <-]; repeat split|reflexivity].
Qed.

(** A response whose status is not "success" leaves the page as it is. *)
Lemma sendChatMessage_then_other_status (q : page) (data status : value) :
  Get data (lit "status") = Normal status ->
  status <> VStr (lit "success") ->
  sendChatMessage_then (Parsed data) q = (Normal tt, q).
Proof.
  intros Hs Hne. script.
  rewrite Hs, (strict_eq_str_false _ _ Hne). reflexivity.
Qed.

(** C4. A chat response that arrived and parsed, and whose status is not
    "success", adds no line to the log: resuming [sendChatMessage] with
    it changes nothing on the page (no assistant line, no error line, no
    effect), so the user line, the emptied input field and the request
    sent before it are all there is to observe. *)
Theorem sendChatMessage_non_success_silent
    (p : page) (enc : jsstring) (data status : value) :
  trim (user_query p) <> [] ->
  encodeURIComponent (trim (user_query p)) = Normal enc ->
  Get data (lit "status") = Normal status ->
  status <> VStr (lit "success") ->
  (forall q, sendChatMessage_then (Parsed data) q = (Normal tt, q)) /\
  run [CallSend; Settle ChatReply (Parsed data)] (mkWorld p []) =
  Some (mkWorld
          (mkPage [] (lang_selector p)
                  (innerHTML_roundtrip (chat_box p ++ user_msg (trim (user_query p))))
                  (landmark_name p) (landmark_desc p) (map_link p) (overlay_hidden p)
                  (currentScanText p) (currentScanLang p)
                  (trace p ++ [Fetch (chat_url enc (lang_selector p)) POST None]))
          []).
Proof.
  intros Hne Henc Hs Hst.
  split; [intros q; apply (sendChatMessage_then_other_status q data status Hs Hst)|].
  cbn [run step doc in_flight].
  rewrite (sendChatMessage_sends p enc Hne Henc).
  cbn [started app take_pending pending_eqb resume doc in_flight].
  rewrite (sendChatMessage_then_other_status _ data status Hs Hst).
  reflexivity.
Qed.

(** A body that is JSON [null] has no status to read: the read raises,
    and the catch block adds the error line. *)
Lemma sendChatMessage_then_null (q : page) :
  sendChatMessage_then (Parsed VNull) q =
  (Normal tt,
   with_chat_box (innerHTML_roundtrip (chat_box q ++ bot_error_msg))
     (with_trace (trace q ++ [ConsoleError (lit "Chat Error:") TypeError]) q)).
Proof. reflexivity. Qed.

(** A response with status "success" and a text adds the assistant line
    and scrolls the log to its end. *)
Lemma sendChatMessage_then_success (q : page) (data : value) (text : jsstring) :
  Get data (lit "status") = Normal (VStr (lit "success")) ->
  Get data (lit "text") = Normal (VStr text) ->
  sendChatMessage_then (Parsed data) q =
  (Normal tt,
   with_trace (trace q ++ [ScrollChatToEnd])
     (with_chat_box (innerHTML_roundtrip (chat_box q ++ bot_msg text)) q)).
Proof.
  intros Hs Ht. script. rewrite Hs, strict_eq_str_refl, Ht. reflexivity.
Qed.

(** C9. Pressing "Enter" in the query field is the same as calling
    [sendChatMessage]: the two leave the same page (chat log, input
    field, requests sent) with the same request in flight, and whatever
    happens afterwards happens alike. *)
Theorem keypress_enter_is_send :
  (forall p, keypress (lit "Enter") p = sendChatMessage p) /\
  (forall w evs, run (KeyPress (lit "Enter") :: evs) w = run (CallSend :: evs) w).
Proof.
  assert (E : forall p, keypress (lit "Enter") p = sendChatMessage p).
  { intros p. unfold keypress. rewrite str_eqb_refl. reflexivity. }
  split; [exact E|].
  intros w evs. cbn [run step]. rewrite E. reflexivity.
Qed.

(** Any other key leaves the page alone. *)
Lemma keypress_other_key (key : jsstring) (p : page) :
  key <> lit "Enter" -> keypress key p = (Normal None, p).
Proof.
  intros H. unfold keypress.
  destruct (str_eqb key (lit "Enter")) eqn:E; [|reflexivity].
  apply str_eqb_eq in E; contradiction.
Qed.

(** *** Conversions *)

Lemma Get_error (v : value) (key : jsstring) (e : error) :
  Get v key = Abrupt e -> e = TypeError.
Proof.
  destruct v; simpl; try discriminate; try congruence.
  destruct (own_property props key); discriminate.
Qed.

Lemma ToString_error : forall (v : value) (e : error),
  ToString v = Abrupt e -> e = TypeError.
Proof.
  fix IH 1.
  intros [ | | [|] | x | s | elems | props] e; simpl; try discriminate.
  - set (parts := fix parts (l : list value) : completion (list jsstring) := _).
    assert (Hparts : forall e', parts elems = Abrupt e' -> e' = TypeError).
    { clear e. induction elems as [|x l IHl]; intros e'; simpl; [discriminate|].
      destruct x as [ | | b | y | s | el | pr ] eqn:Ex;
        try (destruct (parts l) eqn:El; [discriminate|intros [= <-]; eapply IHl; reflexivity]).
      - rewrite <- Ex. destruct (ToString x) eqn:Et.
        + destruct (parts l) eqn:El; [discriminate|intros [= <-]; eapply IHl; reflexivity].
        + intros [= <-]. exact (IH x _ Et).
      - rewrite <- Ex. destruct (ToString x) eqn:Et.
        + destruct (parts l) eqn:El; [discriminate|intros [= <-]; eapply IHl; reflexivity].
        + intros [= <-]. exact (IH x _ Et).
      - rewrite <- Ex. destruct (ToString x) eqn:Et.
        + destruct (parts l) eqn:El; [discriminate|intros [= <-]; eapply IHl; reflexivity].
        + intros [= <-]. exact (IH x _ Et). }
    destruct (parts elems) eqn:Ep; [discriminate|].
    intros [= <-]. eapply Hparts; reflexivity.
  - destruct (own_property props (lit "toString")); [congruence|discriminate].
Qed.

Lemma ToDOMString_null_empty_error (v : value) (e : error) :
  ToDOMString_null_empty v = Abrupt e -> e = TypeError.
Proof.
  destruct v; try discriminate; apply ToString_error.
Qed.

(** *** Image recognition *)

(** C1. A scan response with status "success", name [n], history [h]
    and numeric coordinates [lat], [lng] makes the handler show [n] as the
    landmark name and [h] as its description, point the map link to the
    directions URL ending in [destination=<lat>,<lng>] with the numbers
    rendered as they are, and stage [h] together with the current value of
    the language selector for playback; nothing else changes. *)
Theorem camera_change_then_success
    (q : page) (data coordinates : value) (n h : jsstring) (lat lng : spec_float) :
  Get data (lit "status") = Normal (VStr (lit "success")) ->
  Get data (lit "name") = Normal (VStr n) ->
  Get data (lit "history") = Normal (VStr h) ->
  Get data (lit "coordinates") = Normal coordinates ->
  Get coordinates (lit "lat") = Normal (VNum lat) ->
  Get coordinates (lit "lng") = Normal (VNum lng) ->
  camera_change_then (Parsed data) q =
  (Normal tt,
   mkPage (user_query q) (lang_selector q) (chat_box q)
          n h
          (lit "https://www.google.com/maps/dir/?api=1&destination="
           ++ Number_toString lat ++ lit "," ++ Number_toString lng)
          (overlay_hidden q)
          (VStr h) (VStr (lang_selector q))
          (trace q)).
Proof.
  intros Hs Hn Hh Hc Hlat Hlng. script.
  rewrite Hs, strict_eq_str_refl, Hn, Hh, Hc, Hlat, Hlng. reflexivity.
Qed.

(** C5. A scan response whose status is not "success" and that carries
    the message [m] makes the handler show "Unknown Landmark" and [m]; the
    staged text and language, like the rest of the page, stay as they
    were. *)
Theorem camera_change_then_other_status
    (q : page) (data status : value) (m : jsstring) :
  Get data (lit "status") = Normal status ->
  status <> VStr (lit "success") ->
  Get data (lit "message") = Normal (VStr m) ->
  camera_change_then (Parsed data) q =
  (Normal tt,
   mkPage (user_query q) (lang_selector q) (chat_box q)
          (lit "Unknown Landmark") m
          (map_link q) (overlay_hidden q)
          (currentScanText q) (currentScanLang q)
          (trace q)).
Proof.
  intros Hs Hne Hm. script.
  rewrite Hs, (strict_eq_str_false _ _ Hne), Hm. reflexivity.
Qed.

(** The change handler never ends abruptly, whatever the settlement. *)
Lemma camera_change_then_normal (o : outcome) (q : page) :
  fst (camera_change_then o q) = Normal tt.
Proof.
  destruct o as [e|data]; script; cbv [fst]; split_cases; reflexivity.
Qed.

(** C6. When the scan request fails in transport or its body does not
    parse, the handler catches the failure: it ends normally, having shown
    "Error" and "Could not reach the vision server." and logged the
    failure to the console; the staged text and language are untouched.
    No settlement at all makes the handler end abruptly. *)
Theorem camera_change_then_failure :
  (forall (e : error) (q : page),
     camera_change_then (Failed e) q =
     (Normal tt,
      mkPage (user_query q) (lang_selector q) (chat_box q)
             (lit "Error") (lit "Could not reach the vision server.")
             (map_link q) (overlay_hidden q)
             (currentScanText q) (currentScanLang q)
             (trace q ++ [ConsoleError (lit "Scan Error:") e]))) /\
  (forall (o : outcome) (q : page), fst (camera_change_then o q) = Normal tt).
Proof.
  split; [reflexivity|apply camera_change_then_normal].
Qed.

(** C10 (amended). A scan response with status "success" whose
    coordinates are absent or null makes the read of [lat] raise a
    TypeError, which the handler's own catch block takes: the handler ends
    normally with "Error" and "Could not reach the vision server." shown
    in place of whatever was written from the response, and with the staged
    text and language untouched. *)
Theorem camera_change_then_no_coordinates
    (q : page) (data coordinates : value) :
  Get data (lit "status") = Normal (VStr (lit "success")) ->
  Get data (lit "coordinates") = Normal coordinates ->
  coordinates = VUndefined \/ coordinates = VNull ->
  camera_change_then (Parsed data) q =
  (Normal tt,
   mkPage (user_query q) (lang_selector q) (chat_box q)
          (lit "Error") (lit "Could not reach the vision server.")
          (map_link q) (overlay_hidden q)
          (currentScanText q) (currentScanLang q)
          (trace q ++ [ConsoleError (lit "Scan Error:") TypeError])).
Proof.
  intros Hs Hc Hnone. script.
  rewrite Hs, strict_eq_str_refl, Hc.
  assert (Hlat : Get coordinates (lit "lat") = Abrupt TypeError)
    by (destruct Hnone; subst; reflexivity).
  rewrite Hlat.
  destruct (Get data (lit "name")) as [name|e] eqn:Hn;
    [|rewrite (Get_error _ _ _ Hn); reflexivity].
  destruct (ToDOMString_null_empty name) as [name_s|e] eqn:Hns;
    [|rewrite (ToDOMString_null_empty_error _ _ Hns); reflexivity].
  destruct (Get data (lit "history")) as [history|e] eqn:Hh;
    [|rewrite (Get_error _ _ _ Hh); reflexivity].
  destruct (ToDOMString_null_empty history) as [history_s|e] eqn:Hhs;
    [|rewrite (ToDOMString_null_empty_error _ _ Hhs); reflexivity].
  reflexivity.
Qed.

(** Coordinates of any other shape raise nothing: properties missing
    from them read as [undefined], the link is built from the text
    "undefined", and the response is staged like any other success. *)
Lemma camera_change_then_odd_coordinates
    (q : page) (data coordinates : value) (n h : jsstring) :
  Get data (lit "status") = Normal (VStr (lit "success")) ->
  Get data (lit "name") = Normal (VStr n) ->
  Get data (lit "history") = Normal (VStr h) ->
  Get data (lit "coordinates") = Normal coordinates ->
  Get coordinates (lit "lat") = Normal VUndefined ->
  Get coordinates (lit "lng") = Normal VUndefined ->
  camera_change_then (Parsed data) q =
  (Normal tt,
   mkPage (user_query q) (lang_selector q) (chat_box q)
          n h
          (lit "https://www.google.com/maps/dir/?api=1&destination=undefined,undefined")
          (overlay_hidden q)
          (VStr h) (VStr (lang_selector q))
          (trace q)).
Proof.
  intros Hs Hn Hh Hc Hlat Hlng. script.
  rewrite Hs, strict_eq_str_refl, Hn, Hh, Hc, Hlat, Hlng. reflexivity.
Qed.

(** *** Voice playback *)


(** The request of [playResultVoice] for a staged string. *)
Lemma playResultVoice_sends (p : page) (text enc : jsstring) (lang : value) (lang_s : jsstring) :
  currentScanText p = VStr text ->
  text <> [] ->
  encodeURIComponent text = Normal enc ->
  or_else (currentScanLang p) (VStr (lit "ta")) = lang ->
  ToString lang = Normal lang_s ->
  playResultVoice p =
  (Normal (Some VoiceReply),
   with_trace (trace p ++ [Fetch (voice_url enc lang_s) GET None]) p).
Proof.
  intros Ht Hne Henc Hl Hls. script.
  rewrite Ht, Hl. cbn [ToBoolean negb ToString].
  destruct text as [|c text']; [contradiction|]. cbn beta iota.
  rewrite Henc, Hls. reflexivity.
Qed.

(** C8 (amended). For a staged text that is a non-empty string and can
    be encoded, [playResultVoice] sends a GET request to the voice
    endpoint carrying that text, encoded, and the staged language, or 'ta'
    when the staged language is unset or empty. For a response whose
    [audio_url] is a non-empty string, the continuation builds the audio
    from exactly that string and plays it; for a response whose
    [audio_url] is absent or otherwise falsy (the empty string included)
    it plays nothing and changes nothing. *)
Theorem playResultVoice_request_and_playback :
  (forall (p : page) (text enc lang : jsstring),
     currentScanText p = VStr text ->
     text <> [] ->
     encodeURIComponent text = Normal enc ->
     (currentScanLang p = VStr lang /\ lang <> []) \/
     ((currentScanLang p = VUndefined \/ currentScanLang p = VStr []) /\ lang = lit "ta") ->
     playResultVoice p =
     (Normal (Some VoiceReply),
      with_trace (trace p ++ [Fetch (lit "/api/chatbot/voice-guide?text=" ++ enc
                                     ++ lit "&lang=" ++ lang) GET None]) p)) /\
  (forall (q : page) (data : value) (url : jsstring),
     Get data (lit "audio_url") = Normal (VStr url) ->
     url <> [] ->
     playResultVoice_then (Parsed data) q =
     (Normal tt, with_trace (trace q ++ [AudioPlay url]) q)) /\
  (forall (q : page) (data audio_url : value),
     Get data (lit "audio_url") = Normal audio_url ->
     ToBoolean audio_url = false ->
     playResultVoice_then (Parsed data) q = (Normal tt, q)).
Proof.
  split; [|split].
  - intros p text enc lang Ht Hne Henc Hlang.
    apply (playResultVoice_sends p text enc (VStr lang) lang Ht Hne Henc); [|reflexivity].
    unfold or_else.
    destruct Hlang as [[Hl Hlne]|[[Hl|Hl] ->]]; rewrite Hl; simpl; [|reflexivity|reflexivity].
    destruct lang; [contradiction|reflexivity].
  - intros q data url Hu Hne. script. rewrite Hu. cbn [ToBoolean ToString].
    destruct url; [contradiction|reflexivity].
  - intros q data audio_url Hu Hf. script. rewrite Hu, Hf. reflexivity.
Qed.

(** *** The staged text over the life of the page *)








(** Closing the overlay hides it and touches nothing else. *)
Lemma closeResult_hides (p : page) :
  closeResult p = (Normal tt, with_overlay_hidden true p).
Proof. reflexivity. Qed.





(** *** More on the chat client *)

Lemma with_trace_nil (p : page) : with_trace (trace p ++ []) p = p.
Proof. destruct p; unfold with_trace; cbn. now rewrite app_nil_r. Qed.

Lemma encodeURIComponent_cons (c : N) (rest : jsstring) :
  encodeURIComponent (c :: rest) =
  if is_uri_unreserved c then
    match encodeURIComponent rest with
    | Normal r => Normal (c :: r)
    | Abrupt e => Abrupt e
    end
  else if is_trailing_surrogate c then Abrupt URIError
  else if is_leading_surrogate c then
    match rest with
    | [] => Abrupt URIError
    | d :: rest' =>
        if is_trailing_surrogate d then
          match encodeURIComponent rest' with
          | Normal r =>
              Normal (percent_encode ((c - 0xD800) * 0x400 + (d - 0xDC00) + 0x10000) ++ r)
          | Abrupt e => Abrupt e
          end
        else Abrupt URIError
    end
  else
    match encodeURIComponent rest with
    | Normal r => Normal (percent_encode c ++ r)
    | Abrupt e => Abrupt e
    end.
Proof. reflexivity. Qed.

(** [encodeURIComponent] raises nothing but URIError. *)
Lemma encodeURIComponent_error_both (s : jsstring) :
  (forall e, encodeURIComponent s = Abrupt e -> e = URIError) /\
  (forall c e, encodeURIComponent (c :: s) = Abrupt e -> e = URIError).
Proof.
  induction s as [|d s [IH1 IH2]].
  - split; [discriminate|].
    intros c e; cbn.
    destruct (is_uri_unreserved c); [discriminate|].
    destruct (is_trailing_surrogate c); [intros [= <-]; reflexivity|].
    destruct (is_leading_surrogate c); [intros [= <-]; reflexivity|discriminate].
  - split; [apply IH2|].
    intros c e. rewrite encodeURIComponent_cons.
    destruct (is_uri_unreserved c).
    { destruct (encodeURIComponent (d :: s)) eqn:E; [discriminate|].
      intros [= <-]. eapply IH2; exact E. }
    destruct (is_trailing_surrogate c); [intros [= <-]; reflexivity|].
    destruct (is_leading_surrogate c).
    { destruct (is_trailing_surrogate d); [|intros [= <-]; reflexivity].
      destruct (encodeURIComponent s) eqn:E; [discriminate|].
      intros [= <-]. apply IH1; reflexivity. }
    destruct (encodeURIComponent (d :: s)) eqn:E; [discriminate|].
    intros [= <-]. eapply IH2; exact E.
Qed.

Lemma encodeURIComponent_error (s : jsstring) (e : error) :
  encodeURIComponent s = Abrupt e -> e = URIError.
Proof. apply encodeURIComponent_error_both. Qed.

(** X1. [sendChatMessage] does one of three things, and nothing else:
    nothing at all for a blank query; for an encodable query, the user
    line appended by [innerHTML +=], the emptied field and one POST
    request; for a query with an unpaired surrogate, the user line, the
    emptied field, a console error and the error line appended to the log
    as it reads after the user line, with no request sent. It never ends
    abruptly and never touches the scan display or the playback context. *)
Theorem sendChatMessage_cases (p : page) :
  (trim (user_query p) = [] /\ sendChatMessage p = (Normal None, p)) \/
  (exists enc,
     trim (user_query p) <> [] /\
     encodeURIComponent (trim (user_query p)) = Normal enc /\
     sendChatMessage p =
     (Normal (Some ChatReply),
      with_trace (trace p ++ [Fetch (chat_url enc (lang_selector p)) POST None])
        (with_user_query []
           (with_chat_box
              (innerHTML_roundtrip (chat_box p ++ user_msg (trim (user_query p)))) p)))) \/
  (trim (user_query p) <> [] /\
   encodeURIComponent (trim (user_query p)) = Abrupt URIError /\
   sendChatMessage p =
   (Normal None,
    with_trace (trace p ++ [ConsoleError (lit "Chat Error:") URIError])
      (with_user_query []
         (with_chat_box
            (innerHTML_roundtrip
               (innerHTML_roundtrip (chat_box p ++ user_msg (trim (user_query p)))
                ++ bot_error_msg)) p)))).
Proof.
  destruct (trim (user_query p)) as [|c q] eqn:Hq.
  - left. split; [reflexivity|]. script. rewrite Hq. reflexivity.
  - right. rewrite <- Hq.
    assert (Hne : trim (user_query p) <> []) by (rewrite Hq; discriminate).
    destruct (encodeURIComponent (trim (user_query p))) as [enc|e] eqn:Henc.
    + left. exists enc. repeat split; [exact Hne|].
      rewrite (sendChatMessage_sends p enc Hne Henc). reflexivity.
    + right. pose proof (encodeURIComponent_error _ _ Henc) as ->.
      repeat split; [exact Hne|].
      rewrite (sendChatMessage_unencodable p URIError Henc). reflexivity.
Qed.

(** X2. The second half of [sendChatMessage], case by case. A rejected
    request or an unparsable body, a body whose status cannot be read, and
    a success whose text cannot be converted each log a console error and
    append the error line. A status other than "success" changes nothing.
    A status "success" whose text converts to a string appends the
    assistant line with that string and scrolls the log. Every append
    goes through [innerHTML +=]; the cases are exhaustive, the run always
    ends normally, and no request is sent. *)
Theorem sendChatMessage_then_cases (q : page) :
  (forall e,
     sendChatMessage_then (Failed e) q =
     (Normal tt,
      with_chat_box (innerHTML_roundtrip (chat_box q ++ bot_error_msg))
        (with_trace (trace q ++ [ConsoleError (lit "Chat Error:") e]) q))) /\
  (forall data e,
     Get data (lit "status") = Abrupt e ->
     sendChatMessage_then (Parsed data) q =
     (Normal tt,
      with_chat_box (innerHTML_roundtrip (chat_box q ++ bot_error_msg))
        (with_trace (trace q ++ [ConsoleError (lit "Chat Error:") e]) q))) /\
  (forall data status,
     Get data (lit "status") = Normal status ->
     status <> VStr (lit "success") ->
     sendChatMessage_then (Parsed data) q = (Normal tt, q)) /\
  (forall data text shown,
     Get data (lit "status") = Normal (VStr (lit "success")) ->
     Get data (lit "text") = Normal text ->
     ToString text = Normal shown ->
     sendChatMessage_then (Parsed data) q =
     (Normal tt,
      with_trace (trace q ++ [ScrollChatToEnd])
        (with_chat_box (innerHTML_roundtrip (chat_box q ++ bot_msg shown)) q))) /\
  (forall data text e,
     Get data (lit "status") = Normal (VStr (lit "success")) ->
     Get data (lit "text") = Normal text ->
     ToString text = Abrupt e ->
     sendChatMessage_then (Parsed data) q =
     (Normal tt,
      with_chat_box (innerHTML_roundtrip (chat_box q ++ bot_error_msg))
        (with_trace (trace q ++ [ConsoleError (lit "Chat Error:") e]) q))) /\
  (forall data status,
     Get data (lit "status") = Normal status ->
     exists text, Get data (lit "text") = Normal text).
Proof.
  split; [reflexivity|].
  split; [intros data e Hs; script; rewrite Hs; reflexivity|].
  split; [intros data status Hs Hne; script;
          rewrite Hs, (strict_eq_str_false _ _ Hne); reflexivity|].
  split; [intros data text shown Hs Ht Hshown; script;
          rewrite Hs, strict_eq_str_refl, Ht, Hshown; reflexivity|].
  split; [intros data text e Hs Ht Hshown; script;
          rewrite Hs, strict_eq_str_refl, Ht, Hshown; reflexivity|].
  intros data status Hs.
  destruct data; try discriminate; cbn [Get]; eauto.
  destruct (own_property props (lit "text")); eauto.
Qed.

(** X3. A whole exchange: for a non-blank, encodable query and a
    response with status "success", the script appends the user line to
    the log and then, to the log as it reads after that, the assistant
    line with the text of the response as a string (the text "undefined"
    if the response has none); the field is emptied, one request is sent
    and the log is scrolled once. *)
Theorem chat_exchange_success
    (p : page) (enc : jsstring) (data text : value) (shown : jsstring) :
  trim (user_query p) <> [] ->
  encodeURIComponent (trim (user_query p)) = Normal enc ->
  Get data (lit "status") = Normal (VStr (lit "success")) ->
  Get data (lit "text") = Normal text ->
  ToString text = Normal shown ->
  run [CallSend; Settle ChatReply (Parsed data)] (mkWorld p []) =
  Some (mkWorld
          (mkPage [] (lang_selector p)
                  (innerHTML_roundtrip
                     (innerHTML_roundtrip (chat_box p ++ user_msg (trim (user_query p)))
                      ++ bot_msg shown))
                  (landmark_name p) (landmark_desc p) (map_link p) (overlay_hidden p)
                  (currentScanText p) (currentScanLang p)
                  (trace p ++ [Fetch (chat_url enc (lang_selector p)) POST None;
                               ScrollChatToEnd]))
          []).
Proof.
  intros Hne Henc Hs Ht Hshown.
  cbn [run step doc in_flight].
  rewrite (sendChatMessage_sends p enc Hne Henc).
  cbn [started app take_pending pending_eqb resume doc in_flight].
  script. rewrite Hs, strict_eq_str_refl, Ht, Hshown.
  fields. rewrite <- !app_assoc. reflexivity.
Qed.


(** *** The built-ins under the chat request *)

Lemma hex_digit_unreserved (n : N) : n < 16 -> is_uri_unreserved (hex_digit n) = true.
Proof.
  intros H. unfold hex_digit, is_uri_unreserved.
  destruct (N.ltb_spec n 10).
  - assert (E : ((0x30 <=? 0x30 + n) && (0x30 + n <=? 0x39)) = true).
    { apply andb_true_intro; split; apply N.leb_le; lia. }
    rewrite E. now rewrite !orb_true_r.
  - assert (E : ((0x41 <=? 0x37 + n) && (0x37 + n <=? 0x5A)) = true).
    { apply andb_true_intro; split; apply N.leb_le; lia. }
    rewrite E. reflexivity.
Qed.

Lemma percent_url_safe (octet : N) :
  octet < 256 -> forallb is_url_safe (percent octet) = true.
Proof.
  intros H. unfold percent. cbn [forallb].
  assert (H1 : octet / 16 < 16) by (apply N.Div0.div_lt_upper_bound; lia).
  assert (H2 : octet mod 16 < 16) by (apply N.mod_lt; lia).
  unfold is_url_safe at 2 3.
  rewrite (hex_digit_unreserved _ H1), (hex_digit_unreserved _ H2).
  reflexivity.
Qed.

Lemma utf8_octets (cp : N) : cp < 0x110000 -> Forall (fun o => o < 256) (utf8 cp).
Proof.
  intros H. unfold utf8.
  destruct (N.ltb_spec cp 0x80); [repeat constructor; lia|].
  destruct (N.ltb_spec cp 0x800).
  { assert (cp / 64 < 32) by (apply N.Div0.div_lt_upper_bound; lia).
    assert (cp mod 64 < 64) by (apply N.mod_lt; lia).
    repeat constructor; lia. }
  destruct (N.ltb_spec cp 0x10000).
  { assert (cp / 4096 < 16) by (apply N.Div0.div_lt_upper_bound; lia).
    assert ((cp / 64) mod 64 < 64) by (apply N.mod_lt; lia).
    assert (cp mod 64 < 64) by (apply N.mod_lt; lia).
    repeat constructor; lia. }
  assert (cp / 262144 < 5) by (apply N.Div0.div_lt_upper_bound; lia).
  assert ((cp / 4096) mod 64 < 64) by (apply N.mod_lt; lia).
  assert ((cp / 64) mod 64 < 64) by (apply N.mod_lt; lia).
  assert (cp mod 64 < 64) by (apply N.mod_lt; lia).
  repeat constructor; lia.
Qed.

Lemma percent_encode_url_safe (cp : N) :
  cp < 0x110000 -> forallb is_url_safe (percent_encode cp) = true.
Proof.
  intros H. unfold percent_encode.
  pose proof (utf8_octets cp H) as Ho.
  induction Ho as [|o l Ho _ IH]; [reflexivity|].
  cbn [flat_map]. rewrite forallb_app, (percent_url_safe o Ho), IH. reflexivity.
Qed.

Lemma encodeURIComponent_url_safe_both (s : jsstring) :
  (forall enc, forallb is_code_unit s = true ->
               encodeURIComponent s = Normal enc -> forallb is_url_safe enc = true) /\
  (forall c enc, forallb is_code_unit (c :: s) = true ->
                 encodeURIComponent (c :: s) = Normal enc -> forallb is_url_safe enc = true).
Proof.
  induction s as [|d s [IH1 IH2]].
  - split; [intros enc _ [= <-]; reflexivity|].
    intros c enc Hc. rewrite encodeURIComponent_cons. cbn [encodeURIComponent].
    cbn [forallb] in Hc. apply andb_prop in Hc as [Hc _].
    apply N.ltb_lt in Hc.
    destruct (is_uri_unreserved c) eqn:Eu.
    { intros [= <-]. cbn [forallb]. unfold is_url_safe. rewrite Eu. reflexivity. }
    destruct (is_trailing_surrogate c); [discriminate|].
    destruct (is_leading_surrogate c); [discriminate|].
    intros [= <-]. rewrite app_nil_r. apply percent_encode_url_safe. lia.
  - split; [apply IH2|].
    intros c enc Hall. rewrite encodeURIComponent_cons.
    cbn [forallb] in Hall. apply andb_prop in Hall as [Hc Hds].
    pose proof Hds as Hds'. cbn [forallb] in Hds'. apply andb_prop in Hds' as [Hd Hs].
    apply N.ltb_lt in Hc. apply N.ltb_lt in Hd.
    destruct (is_uri_unreserved c) eqn:Eu.
    { destruct (encodeURIComponent (d :: s)) as [r|] eqn:E; [|discriminate].
      intros [= <-]. cbn [forallb]. unfold is_url_safe at 1. rewrite Eu.
      apply (IH2 d r Hds E). }
    destruct (is_trailing_surrogate c); [discriminate|].
    destruct (is_leading_surrogate c) eqn:El.
    { destruct (is_trailing_surrogate d) eqn:Et; [|discriminate].
      destruct (encodeURIComponent s) as [r|] eqn:E; [|discriminate].
      intros [= <-]. rewrite forallb_app.
      rewrite (IH1 r Hs eq_refl), andb_true_r.
      apply percent_encode_url_safe.
      unfold is_leading_surrogate in El. unfold is_trailing_surrogate in Et.
      apply andb_prop in El as [El1 El2]. apply andb_prop in Et as [Et1 Et2].
      apply N.leb_le in El1, El2, Et1, Et2. lia. }
    destruct (encodeURIComponent (d :: s)) as [r|] eqn:E; [|discriminate].
    intros [= <-]. rewrite forallb_app.
    rewrite (IH2 d r Hds E), andb_true_r.
    apply percent_encode_url_safe. lia.
Qed.

(** X5. The request of [sendChatMessage] carries the query in encoded
    form: whenever a request is sent, its URL is the endpoint, the encoded
    query and the raw language, and the encoded query is made of unreserved
    characters and percent escapes only, so it holds no [&], [=], [#] or
    space that could end the parameter early. *)
Theorem sendChatMessage_request_is_encoded (p p' : page) :
  forallb is_code_unit (user_query p) = true ->
  sendChatMessage p = (Normal (Some ChatReply), p') ->
  exists enc,
    trace p' = trace p ++ [Fetch (lit "/api/chatbot/ask?query=" ++ enc
                                  ++ lit "&lang=" ++ lang_selector p) POST None] /\
    encodeURIComponent (trim (user_query p)) = Normal enc /\
    forallb is_url_safe enc = true.
Proof.
  intros Hunits Hsend.
  assert (Htrim : forallb is_code_unit (trim (user_query p)) = true).
  { rewrite forallb_forall in *. intros c Hin. apply Hunits.
    unfold trim, trim_end in Hin. apply in_rev in Hin.
    assert (Hsub : forall (l : jsstring) x, In x (trim_start l) -> In x l).
    { induction l as [|y l IH]; cbn; [tauto|].
      destruct (is_white_space y); [intros x Hx; right; apply IH, Hx|tauto]. }
    apply Hsub in Hin. apply in_rev in Hin. apply Hsub in Hin. exact Hin. }
  revert Hsend. script.
  destruct (trim (user_query p)) as [|c q] eqn:Hq; [discriminate|].
  destruct (encodeURIComponent (c :: q)) as [enc|e] eqn:Henc; [|discriminate].
  intros [= <-]. exists enc. fields.
  repeat split.
  apply (proj1 (encodeURIComponent_url_safe_both (c :: q)) enc Htrim Henc).
Qed.

Lemma trim_start_fixed (s : jsstring) :
  (forall c r, s = c :: r -> is_white_space c = false) -> trim_start s = s.
Proof.
  destruct s as [|c r]; [reflexivity|].
  intros H. cbn. now rewrite (H c r eq_refl).
Qed.

Lemma trim_start_idempotent (s : jsstring) : trim_start (trim_start s) = trim_start s.
Proof.
  apply trim_start_fixed. intros c r E. exact (trim_start_head _ _ _ E).
Qed.

Lemma trim_start_app (l m : jsstring) :
  trim_start (l ++ m) =
  match trim_start l with
  | [] => trim_start m
  | _ => trim_start l ++ m
  end.
Proof.
  induction l as [|c l IH]; [reflexivity|].
  cbn. destruct (is_white_space c); [exact IH|reflexivity].
Qed.

Lemma trim_end_cons (c : N) (r : jsstring) :
  is_white_space c = false -> trim_end (c :: r) = c :: trim_end r.
Proof.
  intros Hc. unfold trim_end. cbn [rev]. rewrite trim_start_app.
  destruct (trim_start (rev r)) as [|d t] eqn:E.
  - cbn. rewrite Hc. reflexivity.
  - rewrite rev_app_distr. reflexivity.
Qed.

Lemma trim_end_idempotent (s : jsstring) : trim_end (trim_end s) = trim_end s.
Proof.
  unfold trim_end. now rewrite rev_involutive, trim_start_idempotent.
Qed.

(** Trimming twice is trimming once, and a trimmed string neither starts
    nor ends with white space. *)
Lemma trim_idempotent (s : jsstring) : trim (trim s) = trim s.
Proof.
  unfold trim at 1.
  assert (E : trim_start (trim s) = trim s).
  { apply trim_start_fixed. intros c r Hcr. unfold trim in Hcr.
    destruct (trim_start s) as [|d t] eqn:Es; [discriminate|].
    pose proof (trim_start_head _ _ _ Es) as Hd.
    rewrite (trim_end_cons d t Hd) in Hcr. now injection Hcr as <- _. }
  rewrite E. unfold trim. apply trim_end_idempotent.
Qed.

Lemma trim_no_leading (s : jsstring) (c : N) (r : jsstring) :
  trim s = c :: r -> is_white_space c = false.
Proof.
  intros H. pose proof (trim_idempotent s) as Hi. unfold trim at 1 in Hi.
  rewrite H in Hi.
  destruct (is_white_space c) eqn:Ec; [|reflexivity].
  exfalso.
  assert (Hlen : forall l : jsstring, (List.length (trim_start l) <= List.length l)%nat).
  { induction l as [|y l IH]; cbn; [lia|]. destruct (is_white_space y); cbn; lia. }
  assert (Hlen' : forall l : jsstring, (List.length (trim_end l) <= List.length l)%nat).
  { intros l. unfold trim_end. rewrite length_rev.
    etransitivity; [apply Hlen|]. rewrite length_rev. lia. }
  cbn [trim_start] in Hi. rewrite Ec in Hi.
  apply (f_equal (@List.length N)) in Hi. cbn [List.length] in Hi.
  pose proof (Hlen' (trim_start r)). pose proof (Hlen r). lia.
Qed.

Lemma trim_no_trailing (s : jsstring) (r : jsstring) (c : N) :
  trim s = r ++ [c] -> is_white_space c = false.
Proof.
  unfold trim, trim_end. intros H.
  apply (f_equal (@rev N)) in H. rewrite rev_involutive, rev_app_distr in H.
  exact (trim_start_head _ _ _ H).
Qed.

(** X6. White space around the query is irrelevant: when the trimmed
    query is not empty, [sendChatMessage] does to a page holding the raw
    text exactly what it does to the page holding the trimmed text; and the
    query it shows and sends neither starts nor ends with white space. *)
Theorem sendChatMessage_ignores_surrounding_space (p : page) :
  trim (user_query p) <> [] ->
  sendChatMessage (with_user_query (trim (user_query p)) p) = sendChatMessage p /\
  (forall c r, trim (user_query p) = c :: r -> is_white_space c = false) /\
  (forall r c, trim (user_query p) = r ++ [c] -> is_white_space c = false).
Proof.
  intros Hne. split; [|split].
  - script. fields. rewrite trim_idempotent.
    destruct (trim (user_query p)) as [|c q]; [contradiction|].
    destruct (encodeURIComponent (c :: q)); reflexivity.
  - apply trim_no_leading.
  - apply trim_no_trailing.
Qed.

(** *** More on the scan client *)

Lemma camera_change_then_keeps_overlay (o : outcome) (p : page) :
  overlay_hidden (snd (camera_change_then o p)) = overlay_hidden p.
Proof. destruct o; script; cbv [snd]; split_cases; reflexivity. Qed.

(** X7. Choosing no file does nothing. Choosing a file shows the
    placeholder name, makes the overlay visible and sends one upload with
    the file in the form field [file]; the description, the map link and
    the playback context of the previous scan stay as they are while the
    request is in flight, and a scan already in flight is not cancelled.
    Whatever the settlement of that upload, the overlay is still visible
    after it and nothing is left in flight. *)
Theorem camera_change_starts (w : world) :
  step (CameraChange None) w = Some w /\
  (forall f : File,
     step (CameraChange (Some f)) w =
     Some (mkWorld
             (mkPage (user_query (doc w)) (lang_selector (doc w)) (chat_box (doc w))
                     (lit "Analyzing Landmark...") (landmark_desc (doc w))
                     (map_link (doc w)) false
                     (currentScanText (doc w)) (currentScanLang (doc w))
                     (trace (doc w) ++ [Fetch (lit "/api/recognition/scan") POST
                                              (Some [(lit "file", f)])]))
             (in_flight w ++ [ScanReply]))) /\
  (forall (f : File) (o : outcome),
     exists w',
       run [CameraChange (Some f); Settle ScanReply o] (mkWorld (doc w) []) = Some w' /\
       overlay_hidden (doc w') = false /\
       in_flight w' = []).
Proof.
  split; [destruct w; reflexivity|].
  split; [intros f; reflexivity|].
  intros f o. eexists. split; [reflexivity|].
  split; [|reflexivity].
  cbn [doc]. rewrite camera_change_then_keeps_overlay. reflexivity.
Qed.

(** X8. Whatever the settlement of the scan request, the second half of
    the change handler ends normally and leaves the chat log, the query
    field, the language selector and the overlay alone. Either it stages:
    the response has status "success", and the map link, the staged text
    (the history of the response) and the staged language (the selector's
    value) are all written; or it does not: the link and the playback
    context all stay as they were, and what is shown is "Unknown Landmark"
    or, with a console error, "Error" and the fixed description. *)
Theorem camera_change_then_cases (o : outcome) (q : page) :
  exists name desc,
    (exists data history lat_s lng_s,
       o = Parsed data /\
       Get data (lit "status") = Normal (VStr (lit "success")) /\
       Get data (lit "history") = Normal history /\
       camera_change_then o q =
       (Normal tt,
        mkPage (user_query q) (lang_selector q) (chat_box q)
               name desc (map_url lat_s lng_s) (overlay_hidden q)
               history (VStr (lang_selector q)) (trace q))) \/
    (exists es,
       camera_change_then o q =
       (Normal tt,
        mkPage (user_query q) (lang_selector q) (chat_box q)
               name desc (map_link q) (overlay_hidden q)
               (currentScanText q) (currentScanLang q) (trace q ++ es)) /\
       ((name = lit "Unknown Landmark" /\ es = []) \/
        (exists e, name = lit "Error" /\
                   desc = lit "Could not reach the vision server." /\
                   es = [ConsoleError (lit "Scan Error:") e]))).
Proof.
  destruct o as [e|data]; script; split_cases;
    repeat match goal with
           | H : strict_eq_str _ _ = true |- _ => apply strict_eq_str_true in H; subst
           end;
    first
      [ do 2 eexists; left; do 4 eexists;
        split; [reflexivity|]; split; [eassumption|]; split; [eassumption|];
        reflexivity
      | do 2 eexists; right; exists []; split;
        [ fields; rewrite app_nil_r; reflexivity | left; split; reflexivity ]
      | do 2 eexists; right; eexists [ConsoleError _ _]; split;
        [ reflexivity | right; eexists; repeat split ] ].
Qed.

(** X9. What is shown after a scan response depends on that response
    alone, not on what was shown before: of two overlapping scans, the one
    that answers last is the one displayed. *)
Theorem camera_change_then_display_overwrites (o : outcome) (p1 p2 : page) :
  landmark_name (snd (camera_change_then o p1)) =
    landmark_name (snd (camera_change_then o p2)) /\
  landmark_desc (snd (camera_change_then o p1)) =
    landmark_desc (snd (camera_change_then o p2)).
Proof.
  destruct o as [e|data]; script; cbv [snd]; split_cases; split; reflexivity.
Qed.

(** *** More on the playback client *)

(** X10. [playResultVoice], case by case. A falsy staged text: nothing
    at all. A truthy staged text that converts and encodes, with a
    language that converts: one GET request to the voice endpoint with the
    encoded text and the language (the staged one, or 'ta' when it is
    falsy). A truthy staged text with a conversion or the encoding
    raising: a console error with what was raised, and no request. The
    page itself never changes and the run always ends normally. *)
Theorem playResultVoice_cases (p : page) :
  (ToBoolean (currentScanText p) = false ->
   playResultVoice p = (Normal None, p)) /\
  (forall text_s enc lang_s,
     ToBoolean (currentScanText p) = true ->
     ToString (currentScanText p) = Normal text_s ->
     encodeURIComponent text_s = Normal enc ->
     ToString (or_else (currentScanLang p) (VStr (lit "ta"))) = Normal lang_s ->
     playResultVoice p =
     (Normal (Some VoiceReply),
      with_trace (trace p ++ [Fetch (voice_url enc lang_s) GET None]) p)) /\
  (forall e,
     ToBoolean (currentScanText p) = true ->
     ToString (currentScanText p) = Abrupt e ->
     playResultVoice p =
     (Normal None, with_trace (trace p ++ [ConsoleError (lit "Voice Error:") e]) p)) /\
  (forall text_s e,
     ToBoolean (currentScanText p) = true ->
     ToString (currentScanText p) = Normal text_s ->
     encodeURIComponent text_s = Abrupt e ->
     playResultVoice p =
     (Normal None, with_trace (trace p ++ [ConsoleError (lit "Voice Error:") e]) p)) /\
  (forall text_s enc e,
     ToBoolean (currentScanText p) = true ->
     ToString (currentScanText p) = Normal text_s ->
     encodeURIComponent text_s = Normal enc ->
     ToString (or_else (currentScanLang p) (VStr (lit "ta"))) = Abrupt e ->
     playResultVoice p =
     (Normal None, with_trace (trace p ++ [ConsoleError (lit "Voice Error:") e]) p)).
Proof.
  split; [intros Hb; script; rewrite Hb; reflexivity|].
  split; [intros text_s enc lang_s Hb Ht Henc Hl; script;
          rewrite Hb, Ht, Henc, Hl; reflexivity|].
  split; [intros e Hb Ht; script; rewrite Hb, Ht; reflexivity|].
  split; [intros text_s e Hb Ht Henc; script; rewrite Hb, Ht, Henc; reflexivity|].
  intros text_s enc e Hb Ht Henc Hl; script; rewrite Hb, Ht, Henc, Hl; reflexivity.
Qed.

(** X11. The second half of [playResultVoice], case by case. A rejected
    request or an unparsable body, a body whose [audio_url] cannot be
    read, and a truthy [audio_url] that cannot be converted each log a
    console error and play nothing. A falsy or missing [audio_url] does
    nothing. A truthy [audio_url] that converts to a string is played,
    from exactly that string. The page itself never changes and the run
    always ends normally. *)
Theorem playResultVoice_then_cases (q : page) :
  (forall e,
     playResultVoice_then (Failed e) q =
     (Normal tt, with_trace (trace q ++ [ConsoleError (lit "Voice Error:") e]) q)) /\
  (forall data e,
     Get data (lit "audio_url") = Abrupt e ->
     playResultVoice_then (Parsed data) q =
     (Normal tt, with_trace (trace q ++ [ConsoleError (lit "Voice Error:") e]) q)) /\
  (forall data audio_url,
     Get data (lit "audio_url") = Normal audio_url ->
     ToBoolean audio_url = false ->
     playResultVoice_then (Parsed data) q = (Normal tt, q)) /\
  (forall data audio_url src,
     Get data (lit "audio_url") = Normal audio_url ->
     ToBoolean audio_url = true ->
     ToString audio_url = Normal src ->
     playResultVoice_then (Parsed data) q =
     (Normal tt, with_trace (trace q ++ [AudioPlay src]) q)) /\
  (forall data audio_url e,
     Get data (lit "audio_url") = Normal audio_url ->
     ToBoolean audio_url = true ->
     ToString audio_url = Abrupt e ->
     playResultVoice_then (Parsed data) q =
     (Normal tt, with_trace (trace q ++ [ConsoleError (lit "Voice Error:") e]) q)).
Proof.
  split; [reflexivity|].
  split; [intros data e Hu; script; rewrite Hu; reflexivity|].
  split; [intros data v Hu Hb; script; rewrite Hu, Hb; reflexivity|].
  split; [intros data v src Hu Hb Hs; script; rewrite Hu, Hb, Hs; reflexivity|].
  intros data v e Hu Hb Hs; script; rewrite Hu, Hb, Hs; reflexivity.
Qed.

(** X12. Playback reads the playback context and nothing else: on two
    pages with the same staged text and language, [playResultVoice]
    returns the same result and sends the same request, whatever the
    language selector, the query field, the log or the overlay hold. *)
Theorem playResultVoice_reads_only_staged (p q : page) :
  currentScanText p = currentScanText q ->
  currentScanLang p = currentScanLang q ->
  exists r es,
    playResultVoice p = (Normal r, with_trace (trace p ++ es) p) /\
    playResultVoice q = (Normal r, with_trace (trace q ++ es) q).
Proof.
  intros Ht Hl. script. rewrite Ht, Hl.
  destruct (ToBoolean (currentScanText q)); cbn [negb].
  - split_cases; do 2 eexists; split; reflexivity.
  - exists None, []. now rewrite !with_trace_nil.
Qed.

(** X13. [closeResult] sets the hidden flag and nothing else: closing
    twice is closing once, closing commutes with playback (the request
    sent is the one that would have been sent), and the next scan makes
    the overlay visible again. *)
Theorem closeResult_only_hides (p : page) :
  closeResult p = (Normal tt, with_overlay_hidden true p) /\
  snd (closeResult (snd (closeResult p))) = snd (closeResult p) /\
  playResultVoice (snd (closeResult p)) =
    (fst (playResultVoice p), snd (closeResult (snd (playResultVoice p)))) /\
  forall f, overlay_hidden (snd (camera_change (Some f) (snd (closeResult p)))) = false.
Proof.
  split; [reflexivity|]. split; [reflexivity|]. split; [|reflexivity].
  script. fields.
  destruct (ToBoolean (currentScanText p)); cbn [negb fst snd]; [|reflexivity].
  split_cases; reflexivity.
Qed.

(** *** The page over a run of events *)


















Lemma count_fetch_app (t u : list effect) :
  count_fetch (t ++ u) = (count_fetch t + count_fetch u)%nat.
Proof. unfold count_fetch. now rewrite filter_app, length_app. Qed.

Ltac count_step :=
  cbn [started doc in_flight fst snd]; fields;
  rewrite ?count_fetch_app, ?length_app; cbn [count_fetch filter is_fetch List.length];
  lia.

Lemma sendChatMessage_accounts (p : page) (fl : list pending) :
  (count_fetch (trace (doc (started (sendChatMessage p) fl))) + List.length fl =
   count_fetch (trace p) + List.length (in_flight (started (sendChatMessage p) fl)))%nat.
Proof. script; split_cases; count_step. Qed.

Lemma camera_change_accounts (file : option File) (p : page) (fl : list pending) :
  (count_fetch (trace (doc (started (camera_change file p) fl))) + List.length fl =
   count_fetch (trace p) + List.length (in_flight (started (camera_change file p) fl)))%nat.
Proof. destruct file; script; count_step. Qed.

Lemma playResultVoice_accounts (p : page) (fl : list pending) :
  (count_fetch (trace (doc (started (playResultVoice p) fl))) + List.length fl =
   count_fetch (trace p) + List.length (in_flight (started (playResultVoice p) fl)))%nat.
Proof. script; split_cases; count_step. Qed.

Lemma resume_sends_nothing (k : pending) (o : outcome) (p : page) :
  count_fetch (trace (snd (resume k o p))) = count_fetch (trace p).
Proof.
  destruct k, o; cbn [resume]; script; cbv [snd]; split_cases; fields;
    rewrite ?count_fetch_app; cbn [count_fetch filter is_fetch List.length]; lia.
Qed.

Lemma take_pending_length (k : pending) (l l' : list pending) :
  take_pending k l = Some l' -> List.length l = S (List.length l').
Proof.
  revert l'; induction l as [|x l IH]; intros l'; cbn [take_pending]; [discriminate|].
  destruct (pending_eqb x k); [intros [= <-]; reflexivity|].
  destruct (take_pending k l) as [r|]; [|discriminate].
  intros [= <-]. cbn. now rewrite (IH r eq_refl).
Qed.

Lemma step_accounts (ev : event) (w w' : world) :
  step ev w = Some w' ->
  (count_fetch (trace (doc w')) + List.length (in_flight w) =
   count_fetch (trace (doc w)) + List.length (in_flight w')
   + count_settle [ev])%nat.
Proof.
  destruct ev as [s|l| |key|file| | |k o]; cbn [step]; intros H;
    cbn [count_settle filter is_settle List.length].
  - injection H as <-. fields. lia.
  - injection H as <-. fields. lia.
  - injection H as <-. pose proof (sendChatMessage_accounts (doc w) (in_flight w)). lia.
  - injection H as <-. unfold keypress.
    destruct (str_eqb key (lit "Enter")).
    + pose proof (sendChatMessage_accounts (doc w) (in_flight w)). lia.
    + cbv [ret]. cbn [started doc in_flight]. lia.
  - injection H as <-. pose proof (camera_change_accounts file (doc w) (in_flight w)). lia.
  - injection H as <-. pose proof (playResultVoice_accounts (doc w) (in_flight w)). lia.
  - injection H as <-. fields. lia.
  - destruct (take_pending k (in_flight w)) as [fl|] eqn:Et; [|discriminate].
    injection H as <-. cbn [doc in_flight].
    rewrite (resume_sends_nothing k o (doc w)), (take_pending_length _ _ _ Et). lia.
Qed.

(** X16. Requests are sent once and never again: over any run of events,
    the requests sent are exactly those that settled during the run plus
    those still in flight. A settlement never sends a request (nothing is
    retried), and each entry point sends one exactly when it leaves a
    continuation waiting. *)
Theorem requests_accounted (evs : list event) : forall (w w' : world),
  run evs w = Some w' ->
  (count_fetch (trace (doc w')) + List.length (in_flight w) =
   count_fetch (trace (doc w)) + List.length (in_flight w') + count_settle evs)%nat.
Proof.
  induction evs as [|ev evs IH]; intros w w'; cbn [run].
  - intros [= <-]. cbn. lia.
  - destruct (step ev w) as [w1|] eqn:Hstep; [|discriminate].
    intros Hrun.
    pose proof (step_accounts _ _ _ Hstep) as H1.
    pose proof (IH _ _ Hrun) as H2.
    change (ev :: evs) with ([ev] ++ evs).
    unfold count_settle in *. rewrite filter_app, length_app. lia.
Qed.

(** X17. A key other than "Enter" in the query field does nothing: the
    page and the requests in flight are as before. *)
Theorem keypress_other_key_noop (key : jsstring) (w : world) :
  key <> lit "Enter" ->
  step (KeyPress key) w = Some w.
Proof.
  intros H. cbn [step]. rewrite (keypress_other_key key (doc w) H).
  destruct w; reflexivity.
Qed.

(** X18. From upload to sound: a scan answered with a well-formed
    success response, then closing the overlay, picking another language,
    asking for playback and getting an audio URL back, sends the upload,
    then one voice request for the encoded history in the language that
    was selected when the scan response arrived (not the one picked
    afterwards), and plays exactly the URL received. *)
Theorem scan_then_play
    (p : page) (f : File) (data coordinates voice : value)
    (n h enc url later : jsstring) (lat lng : spec_float) :
  Get data (lit "status") = Normal (VStr (lit "success")) ->
  Get data (lit "name") = Normal (VStr n) ->
  Get data (lit "history") = Normal (VStr h) ->
  Get data (lit "coordinates") = Normal coordinates ->
  Get coordinates (lit "lat") = Normal (VNum lat) ->
  Get coordinates (lit "lng") = Normal (VNum lng) ->
  h <> [] ->
  encodeURIComponent h = Normal enc ->
  lang_selector p <> [] ->
  Get voice (lit "audio_url") = Normal (VStr url) ->
  url <> [] ->
  run [CameraChange (Some f); Settle ScanReply (Parsed data); CallClose;
       UserSelectsLanguage later; CallPlay; Settle VoiceReply (Parsed voice)]
      (mkWorld p []) =
  Some (mkWorld
          (mkPage (user_query p) later (chat_box p)
                  n h (map_url (Number_toString lat) (Number_toString lng))
                  true
                  (VStr h) (VStr (lang_selector p))
                  (trace p ++ [Fetch (lit "/api/recognition/scan") POST
                                     (Some [(lit "file", f)]);
                               Fetch (voice_url enc (lang_selector p)) GET None;
                               AudioPlay url]))
          []).
Proof.
  intros Hs Hn Hh Hc Hlat Hlng Hhne Henc Hlne Hu Hune.
  destruct h as [|h0 h']; [contradiction|].
  destruct url as [|u0 u']; [contradiction|].
  destruct (lang_selector p) as [|l0 l'] eqn:El; [contradiction|].
  cbn [run step]. script.
  cbn [started doc in_flight app take_pending pending_eqb resume].
  script. fields.
  rewrite Hs, strict_eq_str_refl, Hn, Hh, Hc, Hlat, Hlng.
  cbn [ToDOMString_null_empty ToString]. fields.
  cbn [closeResult]. script. fields.
  rewrite El.
  cbn [ToBoolean negb or_else ToString]. rewrite Henc.
  cbn [started doc in_flight app take_pending pending_eqb resume].
  script. fields. rewrite Hu. cbn [ToBoolean ToString]. fields.
  rewrite <- ?app_assoc. reflexivity.
Qed.

End Script.

(** ** The script on the sample data *)

Lemma sendChatMessage_blank_noop_witness :
  trim (lit "   ") = [] /\
  sendChatMessage sample_innerHTML_roundtrip (loaded_page (lit "   ") (lit "en")) =
  (Normal None, loaded_page (lit "   ") (lit "en")) /\
  forall fl, step sample_Number_toString sample_innerHTML_roundtrip CallSend (mkWorld (loaded_page (lit "   ") (lit "en")) fl)
             = Some (mkWorld (loaded_page (lit "   ") (lit "en")) fl).
Proof.
  split; [reflexivity|].
  apply (sendChatMessage_blank_noop sample_Number_toString sample_innerHTML_roundtrip (loaded_page (lit "   ") (lit "en"))).
  reflexivity.
Defined.

Lemma sendChatMessage_user_line_witness :
  trim (lit " hi ") <> [] /\
  encodeURIComponent (trim (lit " hi ")) = Normal (lit "hi") /\
  exists r p',
    sendChatMessage sample_innerHTML_roundtrip (loaded_page (lit " hi ") (lit "en"))
      = (Normal r, p') /\
    user_query p' = [] /\
    (forall enc,
       encodeURIComponent (trim (lit " hi ")) = Normal enc ->
       r = Some ChatReply /\
       chat_box p' = sample_innerHTML_roundtrip ([] ++ user_msg (trim (lit " hi "))) /\
       trace p' = [] ++ [Fetch (chat_url enc (lit "en")) POST None]) /\
    (forall e,
       encodeURIComponent (trim (lit " hi ")) = Abrupt e ->
       r = None /\
       chat_box p' =
         sample_innerHTML_roundtrip
           (sample_innerHTML_roundtrip ([] ++ user_msg (trim (lit " hi ")))
            ++ bot_error_msg) /\
       trace p' = [] ++ [ConsoleError (lit "Chat Error:") e]) /\
    p' = with_trace (trace p')
           (with_user_query [] (with_chat_box (chat_box p') (loaded_page (lit " hi ") (lit "en")))).
Proof.
  split; [discriminate|].
  split; [reflexivity|].
  apply (sendChatMessage_user_line sample_innerHTML_roundtrip
           (loaded_page (lit " hi ") (lit "en"))).
  discriminate.
Defined.

(** C3, as first stated, fails: with " hi " typed, the field is not
    empty, and the line added to the log is built from "hi", not from the
    text as typed; with "   " typed, the field is not empty either, and
    no line is added and no request sent at all. *)
Lemma sendChatMessage_raw_query_counterexample :
  user_query (loaded_page (lit " hi ") (lit "en")) <> [] /\
  chat_box (snd (sendChatMessage sample_innerHTML_roundtrip (loaded_page (lit " hi ") (lit "en")))) =
    user_msg (lit "hi") /\
  chat_box (snd (sendChatMessage sample_innerHTML_roundtrip (loaded_page (lit " hi ") (lit "en")))) <>
    sample_innerHTML_roundtrip
      (chat_box (loaded_page (lit " hi ") (lit "en"))
       ++ user_msg (user_query (loaded_page (lit " hi ") (lit "en")))) /\
  user_query (loaded_page (lit "   ") (lit "en")) <> [] /\
  sendChatMessage sample_innerHTML_roundtrip (loaded_page (lit "   ") (lit "en")) =
    (Normal None, loaded_page (lit "   ") (lit "en")).
Proof.
  split; [discriminate|].
  split; [reflexivity|].
  split; [vm_compute; discriminate|].
  split; [discriminate|reflexivity].
Qed.

Lemma sendChatMessage_non_success_silent_witness :
  trim (lit "where?") <> [] /\
  encodeURIComponent (trim (lit "where?")) = Normal (lit "where%3F") /\
  Get no_match (lit "status") = Normal (VStr (lit "error")) /\
  VStr (lit "error") <> VStr (lit "success") /\
  (forall q, sendChatMessage_then sample_Number_toString sample_innerHTML_roundtrip (Parsed no_match) q = (Normal tt, q)) /\
  run sample_Number_toString sample_innerHTML_roundtrip [CallSend; Settle ChatReply (Parsed no_match)]
      (mkWorld (loaded_page (lit "where?") (lit "en")) []) =
  Some (mkWorld
          (mkPage [] (lit "en") ([] ++ user_msg (trim (lit "where?")))
                  [] [] [] true VUndefined VUndefined
                  ([] ++ [Fetch (chat_url (lit "where%3F") (lit "en")) POST None]))
          []).
Proof.
  split; [discriminate|].
  split; [reflexivity|].
  split; [reflexivity|].
  split; [discriminate|].
  apply (sendChatMessage_non_success_silent sample_Number_toString sample_innerHTML_roundtrip
           (loaded_page (lit "where?") (lit "en")) (lit "where%3F")
           no_match (VStr (lit "error")));
    [discriminate|reflexivity|reflexivity|discriminate].
Defined.

Lemma camera_change_then_success_witness :
  Get big_temple (lit "status") = Normal (VStr (lit "success")) /\
  Get big_temple (lit "coordinates")
    = Normal (VObj [(lit "lat", VNum double_11_1); (lit "lng", VNum double_78_2)]) /\
  camera_change_then sample_Number_toString (Parsed big_temple) (loaded_page [] (lit "ta")) =
  (Normal tt,
   mkPage [] (lit "ta") []
          (lit "Big Temple") (lit "Built by Raja Raja I")
          (lit "https://www.google.com/maps/dir/?api=1&destination="
           ++ sample_Number_toString double_11_1 ++ lit ","
           ++ sample_Number_toString double_78_2)
          true
          (VStr (lit "Built by Raja Raja I")) (VStr (lit "ta"))
          []).
Proof.
  split; [reflexivity|].
  split; [reflexivity|].
  apply (camera_change_then_success sample_Number_toString
           (loaded_page [] (lit "ta")) big_temple
           (VObj [(lit "lat", VNum double_11_1); (lit "lng", VNum double_78_2)])
           (lit "Big Temple") (lit "Built by Raja Raja I") double_11_1 double_78_2);
    reflexivity.
Defined.

(** The example of the design document: the link ends in
    [destination=11.1,78.2]. *)
Example big_temple_link :
  map_link (snd (camera_change_then sample_Number_toString (Parsed big_temple)
                                    (loaded_page [] (lit "ta")))) =
  lit "https://www.google.com/maps/dir/?api=1&destination=11.1,78.2".
Proof. reflexivity. Qed.

Lemma camera_change_then_other_status_witness :
  Get no_match (lit "status") = Normal (VStr (lit "error")) /\
  VStr (lit "error") <> VStr (lit "success") /\
  Get no_match (lit "message") = Normal (VStr (lit "no match")) /\
  camera_change_then sample_Number_toString (Parsed no_match) (scanned_page (VStr (lit "en"))) =
  (Normal tt,
   mkPage [] (lit "en") []
          (lit "Unknown Landmark") (lit "no match")
          (lit "https://www.google.com/maps/dir/?api=1&destination=11.1,78.2") false
          (VStr (lit "Built by Raja Raja I")) (VStr (lit "en"))
          []).
Proof.
  split; [reflexivity|].
  split; [discriminate|].
  split; [reflexivity|].
  apply (camera_change_then_other_status sample_Number_toString
           (scanned_page (VStr (lit "en"))) no_match (VStr (lit "error")) (lit "no match"));
    [reflexivity|discriminate|reflexivity].
Defined.

Lemma camera_change_then_no_coordinates_witness :
  Get temple_no_coordinates (lit "status") = Normal (VStr (lit "success")) /\
  Get temple_no_coordinates (lit "coordinates") = Normal VUndefined /\
  camera_change_then sample_Number_toString (Parsed temple_no_coordinates)
                     (loaded_page [] (lit "ta")) =
  (Normal tt,
   mkPage [] (lit "ta") []
          (lit "Error") (lit "Could not reach the vision server.")
          [] true VUndefined VUndefined
          ([] ++ [ConsoleError (lit "Scan Error:") TypeError])).
Proof.
  split; [reflexivity|].
  split; [reflexivity|].
  apply (camera_change_then_no_coordinates sample_Number_toString
           (loaded_page [] (lit "ta")) temple_no_coordinates VUndefined);
    [reflexivity|reflexivity|left; reflexivity].
Defined.

(** C10, as first stated, fails: with coordinates that are an object
    without [lat] and [lng], nothing is raised; the name from the response
    stays on display, the link ends in [undefined,undefined], and the
    history is staged for playback. *)
Lemma camera_change_then_empty_coordinates_counterexample :
  Get temple_empty_coordinates (lit "status") = Normal (VStr (lit "success")) /\
  Get temple_empty_coordinates (lit "coordinates") = Normal (VObj []) /\
  Get (VObj []) (lit "lat") = Normal VUndefined /\
  Get (VObj []) (lit "lng") = Normal VUndefined /\
  camera_change_then sample_Number_toString (Parsed temple_empty_coordinates)
                     (loaded_page [] (lit "ta")) =
  (Normal tt,
   mkPage [] (lit "ta") []
          (lit "Big Temple") (lit "Built by Raja Raja I")
          (lit "https://www.google.com/maps/dir/?api=1&destination=undefined,undefined")
          true
          (VStr (lit "Built by Raja Raja I")) (VStr (lit "ta"))
          []) /\
  landmark_name (snd (camera_change_then sample_Number_toString
                        (Parsed temple_empty_coordinates) (loaded_page [] (lit "ta"))))
    <> lit "Error" /\
  currentScanText (snd (camera_change_then sample_Number_toString
                          (Parsed temple_empty_coordinates) (loaded_page [] (lit "ta"))))
    <> currentScanText (loaded_page [] (lit "ta")).
Proof.
  repeat (split; [reflexivity|]).
  split; vm_compute; discriminate.
Qed.

Lemma playResultVoice_request_and_playback_witness :
  playResultVoice sample_Number_toString (scanned_page (VStr (lit "en"))) =
  (Normal (Some VoiceReply),
   with_trace (trace (scanned_page (VStr (lit "en")))
               ++ [Fetch (lit "/api/chatbot/voice-guide?text="
                          ++ lit "Built%20by%20Raja%20Raja%20I"
                          ++ lit "&lang=" ++ lit "en") GET None])
              (scanned_page (VStr (lit "en")))) /\
  playResultVoice sample_Number_toString (scanned_page VUndefined) =
  (Normal (Some VoiceReply),
   with_trace (trace (scanned_page VUndefined)
               ++ [Fetch (lit "/api/chatbot/voice-guide?text="
                          ++ lit "Built%20by%20Raja%20Raja%20I"
                          ++ lit "&lang=" ++ lit "ta") GET None])
              (scanned_page VUndefined)) /\
  playResultVoice_then sample_Number_toString (Parsed voice_ready) (scanned_page (VStr (lit "en"))) =
  (Normal tt,
   with_trace (trace (scanned_page (VStr (lit "en"))) ++ [AudioPlay (lit "http://x/a.mp3")])
              (scanned_page (VStr (lit "en")))) /\
  playResultVoice_then sample_Number_toString (Parsed (VObj [])) (scanned_page (VStr (lit "en"))) =
  (Normal tt, scanned_page (VStr (lit "en"))).
Proof.
  destruct (playResultVoice_request_and_playback sample_Number_toString)
    as [Hreq [Hplay Hnone]].
  split; [|split; [|split]].
  - apply (Hreq (scanned_page (VStr (lit "en"))) (lit "Built by Raja Raja I")
                (lit "Built%20by%20Raja%20Raja%20I") (lit "en"));
      [reflexivity|discriminate|reflexivity|].
    left; split; [reflexivity|discriminate].
  - apply (Hreq (scanned_page VUndefined) (lit "Built by Raja Raja I")
                (lit "Built%20by%20Raja%20Raja%20I") (lit "ta"));
      [reflexivity|discriminate|reflexivity|].
    right; split; [left; reflexivity|reflexivity].
  - apply (Hplay (scanned_page (VStr (lit "en"))) voice_ready (lit "http://x/a.mp3"));
      [reflexivity|discriminate].
  - apply (Hnone (scanned_page (VStr (lit "en"))) (VObj []) VUndefined); reflexivity.
Defined.

(** C8, as first stated, fails: a response whose [audio_url] is the
    empty string contains an [audio_url], yet nothing is built or played;
    and a staged language that is the empty string is replaced by 'ta' in
    the request. *)
Lemma playResultVoice_empty_url_counterexample :
  Get voice_empty_url (lit "audio_url") = Normal (VStr []) /\
  playResultVoice_then sample_Number_toString (Parsed voice_empty_url)
                       (scanned_page (VStr (lit "en"))) =
  (Normal tt, scanned_page (VStr (lit "en"))) /\
  trace (snd (playResultVoice sample_Number_toString (scanned_page (VStr [])))) =
  [Fetch (lit "/api/chatbot/voice-guide?text=Built%20by%20Raja%20Raja%20I&lang=ta") GET None].
Proof.
  repeat split.
Qed.


Lemma chat_exchange_success_witness :
  trim (lit " hi ") <> [] /\
  encodeURIComponent (trim (lit " hi ")) = Normal (lit "hi") /\
  Get hello_reply (lit "status") = Normal (VStr (lit "success")) /\
  Get hello_reply (lit "text") = Normal (VStr (lit "Hello")) /\
  run sample_Number_toString sample_innerHTML_roundtrip [CallSend; Settle ChatReply (Parsed hello_reply)]
      (mkWorld (loaded_page (lit " hi ") (lit "en")) []) =
  Some (mkWorld
          (mkPage [] (lit "en")
                  ([] ++ user_msg (trim (lit " hi ")) ++ bot_msg (lit "Hello"))
                  [] [] [] true VUndefined VUndefined
                  ([] ++ [Fetch (chat_url (lit "hi") (lit "en")) POST None;
                          ScrollChatToEnd]))
          []).
Proof.
  split; [discriminate|].
  split; [reflexivity|].
  split; [reflexivity|].
  split; [reflexivity|].
  apply (chat_exchange_success sample_Number_toString sample_innerHTML_roundtrip
           (loaded_page (lit " hi ") (lit "en")) (lit "hi")
           hello_reply (VStr (lit "Hello")) (lit "Hello"));
    [discriminate|reflexivity|reflexivity|reflexivity|reflexivity].
Defined.


Lemma sendChatMessage_request_is_encoded_witness :
  forallb is_code_unit (lit "a b?c/d") = true /\
  exists enc,
    trace (snd (sendChatMessage sample_innerHTML_roundtrip (loaded_page (lit "a b?c/d") (lit "en")))) =
      [] ++ [Fetch (lit "/api/chatbot/ask?query=" ++ enc ++ lit "&lang=" ++ lit "en")
                   POST None] /\
    encodeURIComponent (trim (lit "a b?c/d")) = Normal enc /\
    forallb is_url_safe enc = true.
Proof.
  split; [reflexivity|].
  apply (sendChatMessage_request_is_encoded
           sample_innerHTML_roundtrip (loaded_page (lit "a b?c/d") (lit "en"))
           (snd (sendChatMessage sample_innerHTML_roundtrip (loaded_page (lit "a b?c/d") (lit "en")))));
    reflexivity.
Defined.

Lemma sendChatMessage_ignores_surrounding_space_witness :
  trim (lit " hi ") <> [] /\
  sendChatMessage sample_innerHTML_roundtrip (with_user_query (trim (lit " hi ")) (loaded_page (lit " hi ") (lit "en")))
    = sendChatMessage sample_innerHTML_roundtrip (loaded_page (lit " hi ") (lit "en")) /\
  (forall c r, trim (lit " hi ") = c :: r -> is_white_space c = false) /\
  (forall r c, trim (lit " hi ") = r ++ [c] -> is_white_space c = false).
Proof.
  split; [discriminate|].
  apply (sendChatMessage_ignores_surrounding_space sample_innerHTML_roundtrip (loaded_page (lit " hi ") (lit "en"))).
  discriminate.
Defined.

Lemma playResultVoice_reads_only_staged_witness :
  exists r es,
    playResultVoice sample_Number_toString (scanned_page (VStr (lit "en"))) =
      (Normal r, with_trace (trace (scanned_page (VStr (lit "en"))) ++ es)
                            (scanned_page (VStr (lit "en")))) /\
    playResultVoice sample_Number_toString
      (with_overlay_hidden true (with_lang_selector (lit "fr") (scanned_page (VStr (lit "en"))))) =
      (Normal r,
       with_trace
         (trace (with_overlay_hidden true
                   (with_lang_selector (lit "fr") (scanned_page (VStr (lit "en"))))) ++ es)
         (with_overlay_hidden true
            (with_lang_selector (lit "fr") (scanned_page (VStr (lit "en")))))).
Proof.
  apply (playResultVoice_reads_only_staged sample_Number_toString
           (scanned_page (VStr (lit "en")))
           (with_overlay_hidden true
              (with_lang_selector (lit "fr") (scanned_page (VStr (lit "en"))))));
    reflexivity.
Defined.



Lemma requests_accounted_witness :
  exists w',
    run sample_Number_toString sample_innerHTML_roundtrip
        [CameraChange (Some temple_photo); CallSend; Settle ScanReply (Parsed big_temple)]
        (mkWorld (loaded_page (lit "hi") (lit "ta")) []) = Some w' /\
    (count_fetch (trace (doc w')) + 0 = 0 + List.length (in_flight w') + 1)%nat.
Proof.
  eexists. split; [reflexivity|].
  apply (requests_accounted sample_Number_toString sample_innerHTML_roundtrip
           [CameraChange (Some temple_photo); CallSend; Settle ScanReply (Parsed big_temple)]
           (mkWorld (loaded_page (lit "hi") (lit "ta")) [])).
  reflexivity.
Defined.

Lemma keypress_other_key_noop_witness :
  lit "a" <> lit "Enter" /\
  step sample_Number_toString sample_innerHTML_roundtrip (KeyPress (lit "a"))
       (mkWorld (loaded_page (lit "hi") (lit "en")) []) =
  Some (mkWorld (loaded_page (lit "hi") (lit "en")) []).
Proof.
  split; [discriminate|].
  apply (keypress_other_key_noop sample_Number_toString sample_innerHTML_roundtrip (lit "a")
           (mkWorld (loaded_page (lit "hi") (lit "en")) [])).
  discriminate.
Defined.

Lemma scan_then_play_witness :
  Get big_temple (lit "status") = Normal (VStr (lit "success")) /\
  encodeURIComponent (lit "Built by Raja Raja I") = Normal (lit "Built%20by%20Raja%20Raja%20I") /\
  Get voice_ready (lit "audio_url") = Normal (VStr (lit "http://x/a.mp3")) /\
  run sample_Number_toString sample_innerHTML_roundtrip
      [CameraChange (Some temple_photo); Settle ScanReply (Parsed big_temple); CallClose;
       UserSelectsLanguage (lit "en"); CallPlay; Settle VoiceReply (Parsed voice_ready)]
      (mkWorld (loaded_page [] (lit "ta")) []) =
  Some (mkWorld
          (mkPage [] (lit "en") []
                  (lit "Big Temple") (lit "Built by Raja Raja I")
                  (map_url (sample_Number_toString double_11_1)
                           (sample_Number_toString double_78_2))
                  true
                  (VStr (lit "Built by Raja Raja I")) (VStr (lit "ta"))
                  ([] ++ [Fetch (lit "/api/recognition/scan") POST
                                (Some [(lit "file", temple_photo)]);
                          Fetch (voice_url (lit "Built%20by%20Raja%20Raja%20I") (lit "ta"))
                                GET None;
                          AudioPlay (lit "http://x/a.mp3")]))
          []).
Proof.
  split; [reflexivity|].
  split; [reflexivity|].
  split; [reflexivity|].
  apply (scan_then_play sample_Number_toString sample_innerHTML_roundtrip
           (loaded_page [] (lit "ta")) temple_photo big_temple
           (VObj [(lit "lat", VNum double_11_1); (lit "lng", VNum double_78_2)])
           voice_ready
           (lit "Big Temple") (lit "Built by Raja Raja I")
           (lit "Built%20by%20Raja%20Raja%20I") (lit "http://x/a.mp3") (lit "en")
           double_11_1 double_78_2);
    first [reflexivity | discriminate].
Defined.

Lemma sendChatMessage_then_cases_witness :
  sendChatMessage_then sample_Number_toString sample_innerHTML_roundtrip
    (Parsed VNull) (loaded_page [] (lit "en")) =
  (Normal tt,
   with_chat_box (sample_innerHTML_roundtrip ([] ++ bot_error_msg))
     (with_trace ([] ++ [ConsoleError (lit "Chat Error:") TypeError])
                 (loaded_page [] (lit "en")))) /\
  sendChatMessage_then sample_Number_toString sample_innerHTML_roundtrip
    (Parsed no_match) (loaded_page [] (lit "en")) =
  (Normal tt, loaded_page [] (lit "en")) /\
  sendChatMessage_then sample_Number_toString sample_innerHTML_roundtrip
    (Parsed hello_reply) (loaded_page [] (lit "en")) =
  (Normal tt,
   with_trace ([] ++ [ScrollChatToEnd])
     (with_chat_box (sample_innerHTML_roundtrip ([] ++ bot_msg (lit "Hello")))
                    (loaded_page [] (lit "en")))) /\
  sendChatMessage_then sample_Number_toString sample_innerHTML_roundtrip
    (Parsed unprintable_reply) (loaded_page [] (lit "en")) =
  (Normal tt,
   with_chat_box (sample_innerHTML_roundtrip ([] ++ bot_error_msg))
     (with_trace ([] ++ [ConsoleError (lit "Chat Error:") TypeError])
                 (loaded_page [] (lit "en")))) /\
  (exists text, Get hello_reply (lit "text") = Normal text).
Proof.
  destruct (sendChatMessage_then_cases sample_Number_toString sample_innerHTML_roundtrip
              (loaded_page [] (lit "en")))
    as [_ [Hunread [Hother [Hshown [Hunprintable Htext]]]]].
  split; [apply (Hunread VNull TypeError); reflexivity|].
  split; [apply (Hother no_match (VStr (lit "error"))); [reflexivity|discriminate]|].
  split; [apply (Hshown hello_reply (VStr (lit "Hello")) (lit "Hello")); reflexivity|].
  split; [apply (Hunprintable unprintable_reply (VObj [(lit "toString", VNull)]) TypeError);
          reflexivity|].
  apply (Htext hello_reply (VStr (lit "success"))). reflexivity.
Defined.

Lemma playResultVoice_cases_witness :
  playResultVoice sample_Number_toString (loaded_page [] (lit "en")) =
    (Normal None, loaded_page [] (lit "en")) /\
  playResultVoice sample_Number_toString (scanned_page (VStr (lit "en"))) =
    (Normal (Some VoiceReply),
     with_trace (trace (scanned_page (VStr (lit "en")))
                 ++ [Fetch (voice_url (lit "Built%20by%20Raja%20Raja%20I") (lit "en")) GET None])
                (scanned_page (VStr (lit "en")))) /\
  playResultVoice sample_Number_toString
    (with_currentScanText (VObj [(lit "toString", VNull)]) (scanned_page (VStr (lit "en")))) =
    (Normal None,
     with_trace ([] ++ [ConsoleError (lit "Voice Error:") TypeError])
       (with_currentScanText (VObj [(lit "toString", VNull)]) (scanned_page (VStr (lit "en"))))) /\
  playResultVoice sample_Number_toString
    (with_currentScanText (VStr [0xD800]) (scanned_page (VStr (lit "en")))) =
    (Normal None,
     with_trace ([] ++ [ConsoleError (lit "Voice Error:") URIError])
       (with_currentScanText (VStr [0xD800]) (scanned_page (VStr (lit "en"))))) /\
  playResultVoice sample_Number_toString (scanned_page (VObj [(lit "toString", VNull)])) =
    (Normal None,
     with_trace ([] ++ [ConsoleError (lit "Voice Error:") TypeError])
       (scanned_page (VObj [(lit "toString", VNull)]))).
Proof.
  split.
  { apply (proj1 (playResultVoice_cases sample_Number_toString (loaded_page [] (lit "en")))).
    reflexivity. }
  split.
  { apply (proj1 (proj2 (playResultVoice_cases sample_Number_toString
                           (scanned_page (VStr (lit "en")))))
             (lit "Built by Raja Raja I") (lit "Built%20by%20Raja%20Raja%20I") (lit "en"));
      reflexivity. }
  split.
  { apply (proj1 (proj2 (proj2 (playResultVoice_cases sample_Number_toString
             (with_currentScanText (VObj [(lit "toString", VNull)])
                                   (scanned_page (VStr (lit "en"))))))) TypeError);
      reflexivity. }
  split.
  { apply (proj1 (proj2 (proj2 (proj2 (playResultVoice_cases sample_Number_toString
             (with_currentScanText (VStr [0xD800]) (scanned_page (VStr (lit "en"))))))))
             [0xD800] URIError);
      reflexivity. }
  apply (proj2 (proj2 (proj2 (proj2 (playResultVoice_cases sample_Number_toString
           (scanned_page (VObj [(lit "toString", VNull)]))))))
           (lit "Built by Raja Raja I") (lit "Built%20by%20Raja%20Raja%20I") TypeError);
    reflexivity.
Defined.

Lemma playResultVoice_then_cases_witness :
  playResultVoice_then sample_Number_toString (Parsed VNull) (scanned_page (VStr (lit "en"))) =
    (Normal tt,
     with_trace ([] ++ [ConsoleError (lit "Voice Error:") TypeError])
                (scanned_page (VStr (lit "en")))) /\
  playResultVoice_then sample_Number_toString (Parsed voice_empty_url)
                       (scanned_page (VStr (lit "en"))) =
    (Normal tt, scanned_page (VStr (lit "en"))) /\
  playResultVoice_then sample_Number_toString (Parsed voice_ready)
                       (scanned_page (VStr (lit "en"))) =
    (Normal tt,
     with_trace ([] ++ [AudioPlay (lit "http://x/a.mp3")]) (scanned_page (VStr (lit "en")))) /\
  playResultVoice_then sample_Number_toString
    (Parsed (VObj [(lit "audio_url", VObj [(lit "toString", VNull)])]))
    (scanned_page (VStr (lit "en"))) =
    (Normal tt,
     with_trace ([] ++ [ConsoleError (lit "Voice Error:") TypeError])
                (scanned_page (VStr (lit "en")))).
Proof.
  destruct (playResultVoice_then_cases sample_Number_toString (scanned_page (VStr (lit "en"))))
    as [_ [Hunread [Hnone [Hplay Hunprintable]]]].
  split; [apply (Hunread VNull TypeError); reflexivity|].
  split; [apply (Hnone voice_empty_url (VStr [])); reflexivity|].
  split; [apply (Hplay voice_ready (VStr (lit "http://x/a.mp3")) (lit "http://x/a.mp3"));
          reflexivity|].
  apply (Hunprintable (VObj [(lit "audio_url", VObj [(lit "toString", VNull)])])
           (VObj [(lit "toString", VNull)]) TypeError);
    reflexivity.
Defined.
